(** * compare_video_result: verification and composition of comparison videos

    A shallow embedding of [concat_videos.py] (functions [load_config],
    [verify_videos] and [process_and_composite_videos]) and the properties
    its specification states about them.

    Python floats are IEEE 754 binary64 numbers: they are modelled by Rocq's
    primitive floats, whose operations are the same binary64 operations.
    Python objects that are mutated (the reader of a [VideoFileClip], the
    list [clips]) live in an explicit state that is threaded through a small
    state-and-exception monad. *)

From Stdlib Require Import ZArith Floats String.
From stdpp Require Import base list.

Set Default Proof Using "Type".
Set Warnings "-register-all,-inexact-float".

(** ** Values *)

Definition Path := string.
Bind Scope string_scope with Path.

(** What moviepy reads from a media file when it opens it. [size] is the
    list [[w, h]] of moviepy, [fps] and [duration] are Python floats. *)
Record VideoProperties := {
  size : Z * Z;
  fps : float;
  duration : float;
}.

(** A decoded YAML document, as [yaml.safe_load] returns it. A mapping is an
    association list whose first binding of a key is the live one; the
    program looks up string keys only. *)
Inductive yaml :=
| YNone
| YBool (b : bool)
| YInt (n : Z)
| YFloat (x : float)
| YStr (s : string)
| YList (items : list yaml)
| YDict (items : list (string * yaml)).

(** The file system, as far as the program looks at it: a path names no
    file, a media file that moviepy opens (binary data, which does not decode
    as text), a text file that parses as the YAML document [doc], or a text
    file that is neither. *)
Inductive File :=
| Absent
| Video (v : VideoProperties)
| Yaml (doc : yaml)
| Unreadable.

Record World := {
  files : Path -> File;
  (** whether the encoder behind [write_videofile] fails *)
  encoder_fails : bool;
}.

(** [VideoConfig]: one entry of the processed configuration. *)
Record VideoConfig := {
  path : Path;
  description : string;
}.

(** [ColorType = Union[str, Tuple[int, int, int]]] *)
Inductive ColorType :=
| ColorName (name : string)
| ColorRGB (r g b : Z).

(** A Python number that passes [isinstance(_, (int, float))]; [bool] is a
    subclass of [int]. *)
Inductive number :=
| NBool (b : bool)
| NInt (n : Z)
| NFloat (x : float).

(** A [VideoFileClip] object: its identity (the index of its reader on the
    heap) and the attributes set when it was constructed. *)
Record VideoFileClip_object := {
  clip_id : nat;
  filename : Path;
  clip_size : Z * Z;
  clip_fps : float;
  clip_duration : float;
}.

(** The clips that moviepy builds, as the tree of constructor calls. Only
    [VideoFileClip] opens a file. [ColorClip] builds its frame from its size
    and fails on a size that is no pair of non-negative ints (see
    [ColorClip_init]); [TextClip] runs the text renderer of the backend, which
    is taken to be installed and to work, as is the file system on [mkdir];
    the other constructors only record their arguments. *)
Inductive Clip :=
| VideoClip (v : VideoFileClip_object)
| ColorClip (sz : Z * number) (color : ColorType) (ismask : bool) (dur : float)
| TextClip (txt : string) (fontsize : number) (color : ColorType)
           (method : string) (width : float)
| set_position (c : Clip) (pos : string)
| set_duration (c : Clip) (dur : float)
| CompositeVideoClip (layers : list Clip) (use_bgclip : bool)
| clips_array (rows : list (list Clip)).

(** ** Messages, exceptions and output *)

(** The text of an exception. [MsgUnicodeDecode] is the text of a
    [UnicodeDecodeError], [MsgNotAnInteger] and [MsgNegativeRepeats] are those
    of numpy when a dimension is no int or a repeat count is negative. *)

Inductive message :=
| MsgConfigNotFound (p : Path)
| MsgYamlParse
| MsgNotADict
| MsgVideosMissing
| MsgInvalidNumber (n : nat)
| MsgEntryNotDict (i : nat)
| MsgEntryPath (i : nat)
| MsgOutputVideo
| MsgNoConfigs
| MsgVideoNotFound (p : Path)
| MsgSizeMismatch (p : Path) (sz base_size : Z * Z) (base_path : Path)
| MsgFpsMismatch (p : Path) (f base_fps : float) (base_path : Path)
| MsgDurationMismatch (p : Path) (d base_duration : float) (base_path : Path)
| MsgNoCombined
| MsgCannotOpen (p : Path)
| MsgEncoder
| MsgListIndex
| MsgUnboundLocal (name : string)
| MsgUnicodeDecode
| MsgNotAnInteger
| MsgNegativeRepeats.

(** The classes of the exceptions, as the [except] clauses of [main] tell
    them apart. A [UnicodeDecodeError] is a [ValueError]: it is
    [ValueError MsgUnicodeDecode]. *)
Inductive Exception :=
| FileNotFoundError (m : message)
| ValueError (m : message)
| YAMLError (m : message)
| IndexError (m : message)
| UnboundLocalError (m : message)
| OSError (m : message)
| TypeError (m : message).

(** One [print] call. *)
Inductive line :=
| PrWarnDescriptionMissing (i : nat)
| PrWarnDescriptionNotStr (i : nat)
| PrWarnTextAreaHeight
| PrWarnTextAreaColor
| PrWarnFontSize
| PrWarnFontColor
| PrVerifying
| PrLoadingBase (p : Path)
| PrBaseProperties (sz : Z * Z) (f d : float)
| PrChecking (i : nat) (p : Path)
| PrAllMatch
| PrLoadingClips (ps : list Path)
| PrProcessing (i : nat) (p : Path)
| PrOnlyOne
| PrCompositing (n : nat)
| PrWriting (p : Path)
| PrComplete.

(** One call of [write_videofile] that has returned: a video has been
    rendered. And one [mkdir] of the parent of a path. *)
Inductive effect :=
| Mkdir_parent (p : Path)
| Write_videofile (c : Clip) (out : Path) (codec : string) (fps : float)
                  (threads : Z) (preset : string).

(** ** The interpreter state *)

(** [readers !! i] tells whether the clip with identity [i] has a reader
    ([clip.reader is not None]): the media handle is open. *)
Record Machine := {
  readers : list bool;
  stdout : list line;
  effects : list effect;
}.

Definition set_readers (f : list bool -> list bool) (m : Machine) : Machine :=
  {| readers := f (readers m); stdout := stdout m; effects := effects m |}.

Definition add_line (l : line) (m : Machine) : Machine :=
  {| readers := readers m; stdout := stdout m ++ [l]; effects := effects m |}.

Definition add_effect (e : effect) (m : Machine) : Machine :=
  {| readers := readers m; stdout := stdout m; effects := effects m ++ [e] |}.

(** ** A state and exception monad *)

Inductive outcome (A : Type) :=
| Return (a : A)
| Raise (e : Exception).
Arguments Return {A} a.
Arguments Raise {A} e.

Definition M (St A : Type) : Type := St -> outcome A * St.

Definition ret {St A} (a : A) : M St A := fun s => (Return a, s).

Definition raise {St A} (e : Exception) : M St A := fun s => (Raise e, s).

Definition bind {St A B} (c : M St A) (k : A -> M St B) : M St B :=
  fun s =>
    match c s with
    | (Return a, s') => k a s'
    | (Raise e, s') => (Raise e, s')
    end.

Declare Scope monad_scope.
Delimit Scope monad_scope with M.
Notation "x <- c ;; k" := (bind c (fun x => k))
  (at level 100, c at next level, right associativity) : monad_scope.
Notation "c ;; k" := (bind c (fun _ => k))
  (at level 100, right associativity) : monad_scope.
Open Scope monad_scope.

(** [try: body except Exception as e: handler(e)] *)
Definition try_except {St A} (body : M St A) (handler : Exception -> M St A) : M St A :=
  fun s =>
    match body s with
    | (Return a, s') => (Return a, s')
    | (Raise e, s') => handler e s'
    end.

(** [try: body finally: final]: [final] runs on every path; the outcome of
    [body] stands unless [final] raises. *)
Definition try_finally {St A} (body : M St A) (final : M St unit) : M St A :=
  fun s =>
    match body s with
    | (r, s') =>
        match final s' with
        | (Return _, s'') => (r, s'')
        | (Raise e, s'') => (Raise e, s'')
        end
    end.

(** [for x in l: body(x)] *)
Fixpoint for_ {St A} (l : list A) (body : A -> M St unit) : M St unit :=
  match l with
  | [] => ret tt
  | x :: l' => body x ;; for_ l' body
  end.

(** [for i, x in enumerate(l, start=i0): body(i, x)] *)
Fixpoint for_enumerate {St A} (i0 : nat) (l : list A) (body : nat -> A -> M St unit)
  : M St unit :=
  match l with
  | [] => ret tt
  | x :: l' => body i0 x ;; for_enumerate (S i0) l' body
  end.

(** The same loop, for a body that rebinds local variables [acc]. *)
Fixpoint for_enumerate_fold {St A L} (i0 : nat) (l : list A)
    (body : nat -> A -> L -> M St L) (acc : L) : M St L :=
  match l with
  | [] => ret acc
  | x :: l' => acc' <- body i0 x acc ;; for_enumerate_fold (S i0) l' body acc'
  end.

(** [l[i]] *)
Definition getitem {St A} (l : list A) (i : nat) : M St A :=
  match l !! i with
  | Some x => ret x
  | None => raise (IndexError MsgListIndex)
  end.

(** ** The media backend *)

(** [print(...)] *)
Definition print (l : line) : M Machine unit :=
  fun m => (Return tt, add_line l m).

Section Backend.
Variable w : World.

(** [p.exists()] *)
Definition exists_ (p : Path) : bool :=
  match files w p with
  | Absent => false
  | _ => true
  end.

(** [VideoFileClip(str(p))]: a new object with an open reader, or the
    error moviepy raises when the file is not there or is no video. *)
Definition VideoFileClip (p : Path) : M Machine VideoFileClip_object :=
  fun m =>
    match files w p with
    | Video v =>
        (Return {| clip_id := length (readers m); filename := p;
                   clip_size := size v; clip_fps := fps v;
                   clip_duration := duration v |},
         set_readers (fun rs => rs ++ [true]) m)
    | _ => (Raise (OSError (MsgCannotOpen p)), m)
    end.

(** [clip.reader is not None] *)
Definition reader_is_not_None (clip : VideoFileClip_object) : M Machine bool :=
  fun m => (Return (default false (readers m !! clip_id clip)), m).

(** [clip.close()]: the reader is closed and set to [None]. *)
Definition close (clip : VideoFileClip_object) : M Machine unit :=
  fun m => (Return tt, set_readers (fun rs => <[clip_id clip := false]> rs) m).

(** [c.write_videofile(out, codec=, fps=, threads=, preset=)]: the encoder
    writes the video, or it fails and the call raises its error. [effects]
    records the calls that returned: a call that raises has been made, and
    leaves no rendered video in [effects] (what the encoder may have left at
    [out] before it failed is not modelled). *)
Definition write_videofile (c : Clip) (out : Path) (codec : string) (f : float)
    (threads : Z) (preset : string) : M Machine unit :=
  fun m =>
    if encoder_fails w then (Raise (OSError MsgEncoder), m)
    else (Return tt, add_effect (Write_videofile c out codec f threads preset) m).
End Backend.

(** ** [verify_videos] *)

(** The locals of one call of [verify_videos] that its handlers read after
    the body has raised: the list [clips], next to the interpreter state. *)
Record Frame := {
  machine : Machine;
  clips : list VideoFileClip_object;
}.

(** Run an operation of the interpreter inside a frame. *)
Definition lift {A} (c : M Machine A) : M Frame A :=
  fun f =>
    match c (machine f) with
    | (r, m') => (r, {| machine := m'; clips := clips f |})
    end.

(** [clips.append(clip)] *)
Definition clips_append (clip : VideoFileClip_object) : M Frame unit :=
  fun f => (Return tt, {| machine := machine f; clips := clips f ++ [clip] |}).

Definition get_clips : M Frame (list VideoFileClip_object) :=
  fun f => (Return (clips f), f).

(** [a != b] on sizes, the lists [[w, h]] *)
Definition size_ne (a b : Z * Z) : bool :=
  negb ((fst a =? fst b)%Z && (snd a =? snd b)%Z).

(** [a != b] on floats *)
Definition float_ne (a b : float) : bool := negb (PrimFloat.eqb a b).

(** [abs(a - b) > tol] on floats *)
Definition abs_diff_gt (a b tol : float) : bool :=
  PrimFloat.ltb tol (PrimFloat.abs (PrimFloat.sub a b)).

Section Verify.
Variable w : World.

(** [[
    for clip in clips:
        if clip and clip.reader is not None:
            clip.close()
    ]]
    A clip object is truthy. *)
Definition close_clips : M Frame unit :=
  cs <- get_clips ;;
  for_ cs (fun clip =>
    open <- lift (reader_is_not_None clip) ;;
    if open then lift (close clip) else ret tt).

(** The body of the loop over [video_configs[1:]]. *)
Definition check_video (base_video_path : Path) (base_size : Z * Z)
    (base_fps base_duration : float) (i : nat) (video_entry : VideoConfig)
  : M Frame unit :=
  let path := path video_entry in
  lift (print (PrChecking i path)) ;;
  (if negb (exists_ w path)
   then raise (FileNotFoundError (MsgVideoNotFound path))
   else ret tt) ;;
  clip <- lift (VideoFileClip w path) ;;
  (if size_ne (clip_size clip) base_size
   then raise (ValueError
                 (MsgSizeMismatch path (clip_size clip) base_size base_video_path))
   else ret tt) ;;
  (if float_ne (clip_fps clip) base_fps
   then
     if abs_diff_gt (clip_fps clip) base_fps 0.001
     then raise (ValueError
                   (MsgFpsMismatch path (clip_fps clip) base_fps base_video_path))
     else ret tt
   else ret tt) ;;
  (if abs_diff_gt (clip_duration clip) base_duration 0.1
   then raise (ValueError
                 (MsgDurationMismatch path (clip_duration clip) base_duration
                    base_video_path))
   else ret tt) ;;
  clips_append clip.

(** The [try] block. *)
Definition verify_body (video_configs : list VideoConfig) (base_video_path : Path)
  : M Frame unit :=
  lift (print (PrLoadingBase base_video_path)) ;;
  (if negb (exists_ w base_video_path)
   then raise (FileNotFoundError (MsgVideoNotFound base_video_path))
   else ret tt) ;;
  base_clip <- lift (VideoFileClip w base_video_path) ;;
  let base_size := clip_size base_clip in
  let base_fps := clip_fps base_clip in
  let base_duration := clip_duration base_clip in
  clips_append base_clip ;;
  lift (print (PrBaseProperties base_size base_fps base_duration)) ;;
  for_enumerate 2 (tail video_configs)
    (check_video base_video_path base_size base_fps base_duration) ;;
  lift (print PrAllMatch).

(** The function ends without a [return] statement: a caller receives
    [None]. The result type is [option VideoProperties] so that a contract
    that promises the baseline properties can be stated about it. *)
Definition verify_videos (video_configs : list VideoConfig)
  : M Machine (option VideoProperties) :=
  fun m =>
    match video_configs with
    | [] => (Raise (ValueError MsgNoConfigs), m)
    | first :: _ =>
        let run : M Frame (option VideoProperties) :=
          lift (print PrVerifying) ;;
          let base_video_path := path first in
          try_finally
            (try_except
               (verify_body video_configs base_video_path)
               (fun e => close_clips ;; raise e))
            close_clips ;;
          ret None in
        match run {| machine := m; clips := [] |} with
        | (r, f) => (r, machine f)
        end
    end.
End Verify.

(** ** [process_and_composite_videos] *)

(** The configuration that [load_config] returns. It is the decoded mapping
    with these six keys set; other keys of the file stay in the mapping and
    are read by nothing. *)
Record Config := {
  videos : list VideoConfig;
  output_video : Path;
  text_area_height : number;
  text_area_color : ColorType;
  font_size : number;
  font_color : ColorType;
}.

(** [float(n)] for an int [n] with [0 <= n < 2^63], as a pixel count is. *)
Definition float_of_int (n : Z) : float := PrimFloat.of_uint63 (Uint63.of_Z n).

(** The locals that the loop of [process_and_composite_videos] rebinds. *)
Record Locals := {
  combined_vertical_clips : list Clip;
  loaded_clips : list Clip;
  video_clip : option VideoFileClip_object;
}.

(** [ColorClip(size=(w, h), color=color, ismask=, duration=)]: moviepy
    builds the frame as [np.tile(color, w * h).reshape((h, w, 3))]. With a
    float [h] the count [w * h] is a float and [np.tile] raises a
    [TypeError]; a [bool] is no dimension for [reshape], a [TypeError] too;
    a negative count (the width of a video is positive) makes [np.tile]
    raise a [ValueError]. *)
Definition ColorClip_error (h : number) : option Exception :=
  match h with
  | NInt h => if (h <? 0)%Z then Some (ValueError MsgNegativeRepeats) else None
  | _ => Some (TypeError MsgNotAnInteger)
  end.

Definition ColorClip_init {St} (sz : Z * number) (color : ColorType) (ismask : bool)
    (dur : float) : M St Clip :=
  match ColorClip_error (snd sz) with
  | Some e => raise e
  | None => ret (ColorClip sz color ismask dur)
  end.

Section Composite.
Variable w : World.

(** The body of the loop over [enumerate(video_configs)]. *)
Definition composite_entry (original_width : Z) (config : Config)
    (i : nat) (video_entry : VideoConfig) (l : Locals) : M Machine Locals :=
  let video_path := path video_entry in
  let description := description video_entry in
  print (PrProcessing (i + 1) video_path) ;;
  video_clip <- VideoFileClip w video_path ;;
  let loaded := loaded_clips l ++ [VideoClip video_clip] in
  color_clip <-
    ColorClip_init (original_width, text_area_height config) (ColorRGB 255 255 255)
      false (clip_duration video_clip) ;;
  let loaded := loaded ++ [color_clip] in
  let text_clip :=
    TextClip description (font_size config) (font_color config) "caption"
      (PrimFloat.mul (float_of_int original_width) 0.9) in
  let text_clip :=
    set_duration (set_position text_clip "center") (clip_duration video_clip) in
  let loaded := loaded ++ [text_clip] in
  let text_area_composite := CompositeVideoClip [color_clip; text_clip] true in
  let loaded := loaded ++ [text_area_composite] in
  let combined_vertical :=
    clips_array [[VideoClip video_clip]; [text_area_composite]] in
  ret {| combined_vertical_clips := combined_vertical_clips l ++ [combined_vertical];
         loaded_clips := loaded;
         video_clip := Some video_clip |}.

(** The subscripts [config['text_area_height']], ... at the start of the
    function read keys that [load_config] always sets: they are the fields
    of [config]. [fps=video_clip.fps] reads the loop variable after the
    loop. *)
Definition process_and_composite_videos (video_configs : list VideoConfig)
    (output_path : Path) (config : Config) : M Machine unit :=
  print (PrLoadingClips (map path video_configs)) ;;
  first <- getitem video_configs 0 ;;
  first_clip <- VideoFileClip w (path first) ;;
  let '(original_width, original_height) := clip_size first_clip in
  close first_clip ;;
  l <- for_enumerate_fold 0 video_configs (composite_entry original_width config)
         {| combined_vertical_clips := []; loaded_clips := []; video_clip := None |} ;;
  (match combined_vertical_clips l with
   | [] => raise (ValueError MsgNoCombined)
   | _ => ret tt
   end) ;;
  final_composite <-
    (if (length (combined_vertical_clips l) =? 1)%nat
     then print PrOnlyOne ;; getitem (combined_vertical_clips l) 0
     else print (PrCompositing (length (combined_vertical_clips l))) ;;
          ret (clips_array [combined_vertical_clips l])) ;;
  print (PrWriting output_path) ;;
  last_clip <-
    (match video_clip l with
     | Some c => ret c
     | None => raise (UnboundLocalError (MsgUnboundLocal "video_clip"))
     end) ;;
  write_videofile w final_composite output_path "libx264" (clip_fps last_clip)
    4 "medium" ;;
  print PrComplete.
End Composite.

(** ** [load_config] *)

(** [k in d] and [d[k]] on a decoded mapping *)
Fixpoint lookup_key (k : string) (d : list (string * yaml)) : option yaml :=
  match d with
  | [] => None
  | (k', v) :: d' => if String.eqb k k' then Some v else lookup_key k d'
  end.

(** [d.get(k, dflt)] *)
Definition dict_get (d : list (string * yaml)) (k : string) (dflt : yaml) : yaml :=
  default dflt (lookup_key k d).

(** [isinstance(v, (int, float))] *)
Definition as_number (v : yaml) : option number :=
  match v with
  | YBool b => Some (NBool b)
  | YInt n => Some (NInt n)
  | YFloat x => Some (NFloat x)
  | _ => None
  end.

(** [isinstance(v, (str, tuple))]: [safe_load] builds no tuple. *)
Definition as_color (v : yaml) : option ColorType :=
  match v with
  | YStr s => Some (ColorName s)
  | _ => None
  end.

(** [n < 0] *)
Definition number_lt_0 (n : number) : bool :=
  match n with
  | NBool _ => false
  | NInt n => (n <? 0)%Z
  | NFloat x => PrimFloat.ltb x 0
  end.

(** [n <= 0] *)
Definition number_le_0 (n : number) : bool :=
  match n with
  | NBool b => negb b
  | NInt n => (n <=? 0)%Z
  | NFloat x => PrimFloat.leb x 0
  end.

(** [mkdir(parents=True, exist_ok=True)] on the parent of [p] *)
Definition mkdir_parent (p : Path) : M Machine unit :=
  fun m => (Return tt, add_effect (Mkdir_parent p) m).

(** The body of the loop over [enumerate(config['videos'])]. *)
Definition process_entry (i : nat) (video_entry : yaml)
    (processed_videos_config : list VideoConfig) : M Machine (list VideoConfig) :=
  match video_entry with
  | YDict entry =>
      match lookup_key "path" entry with
      | Some (YStr p) =>
          description <-
            (match lookup_key "description" entry with
             | Some (YStr d) => ret d
             | None => print (PrWarnDescriptionMissing i) ;; ret ""%string
             | Some _ => print (PrWarnDescriptionNotStr i) ;; ret ""%string
             end) ;;
          ret (processed_videos_config ++ [{| path := p; description := description |}])
      | _ => raise (ValueError (MsgEntryPath i))
      end
  | _ => raise (ValueError (MsgEntryNotDict i))
  end.

Section LoadConfig.
Variable w : World.

(** [with open(yaml_path, 'r') as f: config = yaml.safe_load(f)]: a text
    file that does not parse as YAML makes [safe_load] raise the [YAMLError]
    that the function wraps; a media file does not decode as text, and
    reading it raises a [UnicodeDecodeError], which the function does not
    catch. [mkdir] is taken to succeed. *)
Definition load_config (yaml_path : Path) : M Machine Config :=
  (if negb (exists_ w yaml_path)
   then raise (FileNotFoundError (MsgConfigNotFound yaml_path))
   else ret tt) ;;
  config <-
    (match files w yaml_path with
     | Yaml doc => ret doc
     | Video _ => raise (ValueError MsgUnicodeDecode)
     | _ => raise (YAMLError MsgYamlParse)
     end) ;;
  match config with
  | YDict config =>
      match lookup_key "videos" config with
      | Some (YList vs) =>
          (if negb ((1 <=? length vs)%nat && (length vs <? 5)%nat)
           then raise (ValueError (MsgInvalidNumber (length vs)))
           else ret tt) ;;
          processed_videos_config <- for_enumerate_fold 0 vs process_entry [] ;;
          output_path <-
            (match lookup_key "output_video" config with
             | Some (YStr p) => ret p
             | _ => raise (ValueError MsgOutputVideo)
             end) ;;
          mkdir_parent output_path ;;
          text_area_height <-
            (match as_number (dict_get config "text_area_height" (YInt 100)) with
             | Some n =>
                 if number_lt_0 n
                 then print PrWarnTextAreaHeight ;; ret (NInt 100)
                 else ret n
             | None => print PrWarnTextAreaHeight ;; ret (NInt 100)
             end) ;;
          text_area_color <-
            (match as_color (dict_get config "text_area_color" (YStr "white")) with
             | Some c => ret c
             | None => print PrWarnTextAreaColor ;; ret (ColorName "white")
             end) ;;
          font_size <-
            (match as_number (dict_get config "font_size" (YInt 30)) with
             | Some n =>
                 if number_le_0 n
                 then print PrWarnFontSize ;; ret (NInt 30)
                 else ret n
             | None => print PrWarnFontSize ;; ret (NInt 30)
             end) ;;
          font_color <-
            (match as_color (dict_get config "font_color" (YStr "black")) with
             | Some c => ret c
             | None => print PrWarnFontColor ;; ret (ColorName "black")
             end) ;;
          ret {| videos := processed_videos_config;
                 output_video := output_path;
                 text_area_height := text_area_height;
                 text_area_color := text_area_color;
                 font_size := font_size;
                 font_color := font_color |}
      | _ => raise (ValueError MsgVideosMissing)
      end
  | _ => raise (ValueError MsgNotADict)
  end.
End LoadConfig.

(** ** [main] of [cli.py] *)

(** One line on the error stream: the prefix that [main] prints in front of
    the text of the exception. *)
Inductive stderr_line :=
| ErrError (e : Exception)
| ErrConfigurationOrVideo (e : Exception)
| ErrYAML (e : Exception)
| ErrUnexpected (e : Exception).

Section Main.
Variable w : World.

(** The [try] block of [main]. *)
Definition main_body (config_path : Path) : M Machine unit :=
  config <- load_config w config_path ;;
  let video_configs := videos config in
  let output_path := output_video config in
  verify_videos w video_configs ;;
  process_and_composite_videos w video_configs output_path config.

(** [main], from the parsed argument [config_file] on: the exit status of
    the process and what was written to the error stream. Each handler
    prints one line and calls [sys.exit(1)]; a run that falls off the end of
    [main] exits with status 0. The handlers are tried in the order
    [FileNotFoundError], [ValueError], [yaml.YAMLError], [Exception]. *)
Definition main (config_file : Path) : Machine -> (Z * list stderr_line) * Machine :=
  fun m =>
    match main_body config_file m with
    | (Return _, m') => ((0%Z, []), m')
    | (Raise e, m') =>
        let l :=
          match e with
          | FileNotFoundError _ => ErrError e
          | ValueError _ => ErrConfigurationOrVideo e
          | YAMLError _ => ErrYAML e
          | _ => ErrUnexpected e
          end in
        ((1%Z, [l]), m')
    end.
End Main.

(** ** [apply_name_rules] of [rename_dataset.py] *)

(** A rule is a [Dict[str, str]]: an association list whose first binding
    of a key is the live one. [rule.get(k, '')]: *)
Fixpoint rule_get (rule : list (string * string)) (k : string) : string :=
  match rule with
  | [] => ""
  | (k', v) :: rule' => if String.eqb k k' then v else rule_get rule' k
  end.

(** [if pattern:] on a string *)
Definition truthy (s : string) : bool :=
  match s with
  | EmptyString => false
  | _ => true
  end.

Section Rename.
(** [re.sub(pattern, repl, s)], from the standard library: the new string,
    or [None] when the call raises (a pattern that does not compile). *)
Variable re_sub : string -> string -> string -> option string.

Fixpoint apply_name_rules (name : string) (rules : list (list (string * string)))
  : option string :=
  match rules with
  | [] => Some name
  | rule :: rules' =>
      let pattern := rule_get rule "from" in
      let replacement := rule_get rule "to" in
      if truthy pattern
      then match re_sub pattern replacement name with
           | Some new_name => apply_name_rules new_name rules'
           | None => None
           end
      else apply_name_rules name rules'
  end.
End Rename.

(** * What the properties are stated with *)

(** Entry [e] names a file that exists and opens as a video with
    properties [v]. *)
Definition has_video (w : World) (e : VideoConfig) (v : VideoProperties) : Prop :=
  files w (path e) = Video v.

(** The clip object that [VideoFileClip] builds for entry [e] when the heap
    already holds [n] readers. *)
Definition object_of (n : nat) (e : VideoConfig) (v : VideoProperties)
  : VideoFileClip_object :=
  {| clip_id := n; filename := path e; clip_size := size v;
     clip_fps := fps v; clip_duration := duration v |}.

(** A clip of properties [v] is out of tolerance with the baseline [b]:
    another frame size, a frame rate further than 0.001 away or a duration
    further than 0.1 away. *)
Definition differs (b v : VideoProperties) : Prop :=
  size v <> size b \/
  abs_diff_gt (fps v) (fps b) 0.001 = true \/
  abs_diff_gt (duration v) (duration b) 0.1 = true.

(** [differs], as a test. *)
Definition differsb (b v : VideoProperties) : bool :=
  size_ne (size v) (size b)
  || abs_diff_gt (fps v) (fps b) 0.001
  || abs_diff_gt (duration v) (duration b) 0.1.

(** The three [ValueError]s of the comparison loop. *)
Definition is_PropertyMismatchError (e : Exception) : Prop :=
  match e with
  | ValueError (MsgSizeMismatch _ _ _ _)
  | ValueError (MsgFpsMismatch _ _ _ _)
  | ValueError (MsgDurationMismatch _ _ _ _) => True
  | _ => False
  end.

(** The contract of the specification for the result of [verify_videos]: on
    files that exist, open and agree within tolerance, the call returns the
    properties of the first entry. *)
Definition returns_baseline (w : World) (video_configs : list VideoConfig)
    (vs : list VideoProperties) (m : Machine) : Prop :=
  Forall2 (has_video w) video_configs vs ->
  (forall b rest, vs = b :: rest -> Forall (fun v => ~ differs b v) rest) ->
  exists b, head vs = Some b
            /\ fst (verify_videos w video_configs m) = Return (Some b).

(** The clip objects that a loop over [es] builds, one [VideoFileClip] per
    entry, when the heap holds [n] readers at its start. *)
Fixpoint objects (n : nat) (es : list VideoConfig) (vs : list VideoProperties)
  : list VideoFileClip_object :=
  match es, vs with
  | e :: es', v :: vs' => object_of n e v :: objects (S n) es' vs'
  | _, _ => []
  end.

(** The readers after [clip.close()] has been called on each clip of [cs]. *)
Definition close_all (cs : list VideoFileClip_object) (rs : list bool) : list bool :=
  fold_left (fun rs c => <[clip_id c := false]> rs) cs rs.

(** The caption band and the column that the loop of
    [process_and_composite_videos] builds for entry [e] and its clip [o]. *)
Definition caption_band (original_width : Z) (config : Config) (e : VideoConfig)
    (o : VideoFileClip_object) : Clip :=
  CompositeVideoClip
    [ColorClip (original_width, text_area_height config) (ColorRGB 255 255 255)
       false (clip_duration o);
     set_duration
       (set_position
          (TextClip (description e) (font_size config) (font_color config)
             "caption" (PrimFloat.mul (float_of_int original_width) 0.9))
          "center")
       (clip_duration o)]
    true.

Definition column (original_width : Z) (config : Config) (e : VideoConfig)
    (o : VideoFileClip_object) : Clip :=
  clips_array [[VideoClip o]; [caption_band original_width config e o]].


(** The final composite for the columns [cols]. *)
Definition arrangement (cols : list Clip) : Clip :=
  match cols with
  | [c] => c
  | _ => clips_array [cols]
  end.

(** The reading of the specification for the frame rate of the render: the
    one established during verification, that of the first entry. *)
Definition renders_at_baseline_fps (w : World) (video_configs : list VideoConfig)
    (vs : list VideoProperties) (output_path : Path) (config : Config)
    (m : Machine) : Prop :=
  Forall2 (has_video w) video_configs vs ->
  fst (verify_videos w video_configs m) = Return None ->
  exists b c,
    head vs = Some b
    /\ effects (snd (process_and_composite_videos w video_configs output_path
                       config m))
       = effects m ++ [Write_videofile c output_path "libx264" (fps b) 4 "medium"].



(** The exception that a line of the error stream reports. *)
Definition reported (l : stderr_line) : Exception :=
  match l with
  | ErrError e | ErrConfigurationOrVideo e | ErrYAML e | ErrUnexpected e => e
  end.

(** Entry [v] of the file is processed into [e]: [v] is a mapping with the
    string [path e] under ["path"], and [description e] is the string under
    ["description"], or the empty string when there is none. *)
Definition processed_as (v : yaml) (e : VideoConfig) : Prop :=
  exists d,
    v = YDict d
    /\ lookup_key "path" d = Some (YStr (path e))
    /\ description e
       = match lookup_key "description" d with
         | Some (YStr s) => s
         | _ => ""%string
         end.

(** The value that [load_config] keeps for a number under an optional key,
    and whether it prints the warning; [bad] is the test that rejects a
    number and [dflt] the default. *)
Definition resolve_number (bad : number -> bool) (dflt : Z) (v : yaml)
  : number * bool :=
  match as_number v with
  | Some n => if bad n then (NInt dflt, true) else (n, false)
  | None => (NInt dflt, true)
  end.

(** The same for a color. *)
Definition resolve_color (dflt : string) (v : yaml) : ColorType * bool :=
  match as_color v with
  | Some c => (c, false)
  | None => (ColorName dflt, true)
  end.

(** The message of the mismatch between a clip [v] at path [p] and the
    baseline [b] at [bp]: the size is compared first, then the frame rate,
    then the duration. *)
Definition mismatch_message (bp p : Path) (b v : VideoProperties) : message :=
  if size_ne (size v) (size b)
  then MsgSizeMismatch p (size v) (size b) bp
  else if abs_diff_gt (fps v) (fps b) 0.001
  then MsgFpsMismatch p (fps v) (fps b) bp
  else MsgDurationMismatch p (duration v) (duration b) bp.

(** A computation leaves a part [proj] of its state as it found it, and it
    raises only exceptions in [P]. *)
Definition keeps {St A B} (proj : St -> B) (c : M St A) : Prop :=
  forall s, proj (snd (c s)) = proj s.

Definition raises_only {St A} (P : Exception -> Prop) (c : M St A) : Prop :=
  forall s e s', c s = (Raise e, s') -> P e.

(** The errors of [verify_videos] on a non-empty list: a file of the list
    that is missing, a file of the list that does not open, or a property
    mismatch. *)
Definition verify_error (video_configs : list VideoConfig) (x : Exception) : Prop :=
  (exists p,
     In p (map path video_configs)
     /\ (x = FileNotFoundError (MsgVideoNotFound p) \/ x = OSError (MsgCannotOpen p)))
  \/ is_PropertyMismatchError x.

(** The error of [verify_videos] for an entry at path [p] whose file is
    missing, or is there and does not open as a video. *)
Definition bad_file_error (w : World) (p : Path) : Exception :=
  match files w p with
  | Absent => FileNotFoundError (MsgVideoNotFound p)
  | _ => OSError (MsgCannotOpen p)
  end.

(** The errors of [process_and_composite_videos] on a non-empty list: a
    file of the list that does not open, the error of [ColorClip] on the
    height of the caption band, or the encoder. *)
Definition compose_error (w : World) (video_configs : list VideoConfig)
    (config : Config) (x : Exception) : Prop :=
  (exists p, In p (map path video_configs) /\ x = OSError (MsgCannotOpen p))
  \/ ColorClip_error (text_area_height config) = Some x
  \/ (x = OSError MsgEncoder /\ encoder_fails w = true).

(** A number is positive; is not negative; is the float NaN. *)
Definition positive (n : number) : Prop :=
  match n with
  | NBool b => b = true
  | NInt n => (0 < n)%Z
  | NFloat x => PrimFloat.ltb 0 x = true
  end.

Definition not_negative (n : number) : Prop :=
  match n with
  | NBool _ => True
  | NInt n => (0 <= n)%Z
  | NFloat x => PrimFloat.leb 0 x = true
  end.

Definition is_nan (n : number) : Prop :=
  match n with
  | NFloat x => PrimFloat.eqb x x = false
  | _ => False
  end.

(** The [ValueError]s that [load_config] raises itself, on a document that
    is not a valid configuration. *)
Definition invalid_configuration (x : Exception) : Prop :=
  match x with
  | ValueError MsgNotADict
  | ValueError MsgVideosMissing
  | ValueError (MsgInvalidNumber _)
  | ValueError (MsgEntryNotDict _)
  | ValueError (MsgEntryPath _)
  | ValueError MsgOutputVideo => True
  | _ => False
  end.

(** The warnings that the loop of [load_config] prints for the entries
    [vs], the first of which has index [i]: one for each mapping without a
    string under ["description"]. *)
Fixpoint description_warnings (i : nat) (vs : list yaml) : list line :=
  match vs with
  | [] => []
  | v :: vs' =>
      match v with
      | YDict d =>
          match lookup_key "description" d with
          | Some (YStr _) => []
          | None => [PrWarnDescriptionMissing i]
          | Some _ => [PrWarnDescriptionNotStr i]
          end
      | _ => []
      end ++ description_warnings (S i) vs'
  end.

(** The line [l] when [b] holds, and nothing otherwise. *)
Definition warning (b : bool) (l : line) : list line := if b then [l] else [].

(** The warnings of [load_config] for the four optional keys of [config],
    in the order in which it looks at them. *)
Definition styling_warnings (config : list (string * yaml)) : list line :=
  warning (snd (resolve_number number_lt_0 100
                  (dict_get config "text_area_height" (YInt 100))))
    PrWarnTextAreaHeight
  ++ warning (snd (resolve_color "white"
                     (dict_get config "text_area_color" (YStr "white"))))
       PrWarnTextAreaColor
  ++ warning (snd (resolve_number number_le_0 30
                     (dict_get config "font_size" (YInt 30))))
       PrWarnFontSize
  ++ warning (snd (resolve_color "black"
                     (dict_get config "font_color" (YStr "black"))))
       PrWarnFontColor.

(** * Concrete inputs *)

Module Example.
Local Open Scope string_scope.

Definition clip_360p : VideoProperties :=
  {| size := (640, 360)%Z; fps := 30; duration := 2 |}.

Definition clip_480p : VideoProperties :=
  {| size := (640, 480)%Z; fps := 30; duration := 2 |}.

(** Within tolerance of [clip_360p], with another frame rate. *)
Definition clip_360p_drift : VideoProperties :=
  {| size := (640, 360)%Z; fps := 30.0005; duration := 2.05 |}.

Definition entry (p : Path) (d : string) : VideoConfig :=
  {| path := p; description := d |}.

Definition yaml_entry (p : Path) (d : string) : yaml :=
  YDict [("path", YStr p); ("description", YStr d)].

Definition four_videos : yaml :=
  YDict [("videos",
          YList [yaml_entry "a.mp4" "A"; yaml_entry "a2.mp4" "B";
                 yaml_entry "c.mp4" "C"; yaml_entry "a.mp4" "D"]);
         ("output_video", YStr "out/compare.mp4")].

Definition world : World :=
  {| files := fun p =>
       if String.eqb p "a.mp4" then Video clip_360p
       else if String.eqb p "a2.mp4" then Video clip_360p
       else if String.eqb p "b.mp4" then Video clip_480p
       else if String.eqb p "c.mp4" then Video clip_360p_drift
       else if String.eqb p "four.yaml" then Yaml four_videos
       else Absent;
     encoder_fails := false |}.

(** An interpreter with no object on the heap and nothing printed. *)
Definition fresh : Machine := {| readers := []; stdout := []; effects := [] |}.

(** One clip; two clips within tolerance of each other; two clips of
    different frame sizes; two clips with the same properties. *)
Definition one_video : list VideoConfig := [entry "a.mp4" "A"].
Definition two_videos : list VideoConfig := [entry "a.mp4" "A"; entry "c.mp4" "C"].
Definition mismatched : list VideoConfig := [entry "a.mp4" "A"; entry "b.mp4" "B"].
Definition identical : list VideoConfig := [entry "a.mp4" "A"; entry "a2.mp4" "B"].

Definition config (vs : list VideoConfig) (color : ColorType) : Config :=
  {| videos := vs; output_video := "out/compare.mp4";
     text_area_height := NInt 100; text_area_color := color;
     font_size := NInt 30; font_color := ColorName "black" |}.

(** Two entries, the second of which names no file. *)
Definition missing_second : list VideoConfig :=
  [entry "a.mp4" "A"; entry "gone.mp4" "G"].



End Example.

(** * Properties *)

(** ** The monad *)

Lemma bind_Return {St A B} (c : M St A) (k : A -> M St B) s a s' :
  c s = (Return a, s') -> bind c k s = k a s'.
Proof. unfold bind. now intros ->. Qed.

Lemma bind_Raise {St A B} (c : M St A) (k : A -> M St B) s e s' :
  c s = (Raise e, s') -> bind c k s = (Raise e, s').
Proof. unfold bind. now intros ->. Qed.

(** ** Floats *)

Lemma SFeqb_finite_inv s m e s0 m0 e0 :
  SFeqb (S754_finite s m e) (S754_finite s0 m0 e0) = true ->
  s = s0 /\ m = m0 /\ e = e0.
Proof.
  unfold SFeqb, SFcompare.
  destruct s, s0; try discriminate;
    destruct (Z.compare e e0) eqn:He; try discriminate;
    apply Z.compare_eq in He;
    destruct (Pos.compare_cont Eq m m0) eqn:Hm; simpl; try discriminate;
    apply Pos.compare_eq in Hm; auto.
Qed.

(** Floats that compare equal with [==] are not further apart than a positive
    tolerance: the test [clip.fps != base_fps] in front of the tolerance test
    changes nothing. *)
Lemma eqb_abs_diff_gt a b :
  PrimFloat.eqb a b = true -> abs_diff_gt a b 0.001 = false.
Proof.
  unfold abs_diff_gt.
  rewrite FloatAxioms.eqb_spec, FloatAxioms.ltb_spec, FloatAxioms.abs_spec,
    FloatAxioms.sub_spec.
  destruct (Prim2SF a) as [sa|sa| |sa ma ea], (Prim2SF b) as [sb|sb| |sb mb eb];
    simpl; try discriminate; try reflexivity.
  all: try (destruct sa; try destruct sb; simpl; try discriminate; reflexivity).
  intros H. apply SFeqb_finite_inv in H. destruct H as (-> & -> & ->).
  rewrite Z.sub_diag. reflexivity.
Qed.

(** A float is never further from itself than a tolerance that is not
    negative, infinities and NaN included. *)
Lemma abs_diff_gt_same x tol :
  PrimFloat.ltb tol 0 = false -> abs_diff_gt x x tol = false.
Proof.
  unfold abs_diff_gt.
  rewrite !FloatAxioms.ltb_spec, FloatAxioms.abs_spec, FloatAxioms.sub_spec.
  change (Prim2SF 0) with (S754_zero false). intros Htol.
  destruct (Prim2SF x) as [s|s| |s mx ex]; simpl.
  - destruct s; exact Htol.
  - destruct s; simpl; unfold SFltb, SFcompare; now destruct (Prim2SF tol).
  - unfold SFltb, SFcompare. now destruct (Prim2SF tol).
  - rewrite Z.sub_diag. exact Htol.
Qed.

Lemma SFeqb_finite_refl s m e :
  SFeqb (S754_finite s m e) (S754_finite s m e) = true.
Proof.
  unfold SFeqb, SFcompare.
  destruct s; rewrite Z.compare_refl, Pos.compare_cont_refl; reflexivity.
Qed.

(** The test [x <= 0] is false on the floats that are positive and on NaN;
    the test [x < 0] is false on the floats that are not negative and on
    NaN. *)
Lemma leb_0_false x :
  PrimFloat.leb x 0 = false
  <-> PrimFloat.ltb 0 x = true \/ PrimFloat.eqb x x = false.
Proof.
  rewrite FloatAxioms.leb_spec, FloatAxioms.ltb_spec, FloatAxioms.eqb_spec.
  change (Prim2SF 0) with (S754_zero false).
  destruct (Prim2SF x) as [s|s| |s mx ex].
  - destruct s; simpl; intuition discriminate.
  - destruct s; simpl; intuition discriminate.
  - simpl; intuition discriminate.
  - rewrite SFeqb_finite_refl. destruct s; simpl; intuition discriminate.
Qed.

Lemma ltb_0_false x :
  PrimFloat.ltb x 0 = false
  <-> PrimFloat.leb 0 x = true \/ PrimFloat.eqb x x = false.
Proof.
  rewrite FloatAxioms.leb_spec, FloatAxioms.ltb_spec, FloatAxioms.eqb_spec.
  change (Prim2SF 0) with (S754_zero false).
  destruct (Prim2SF x) as [s|s| |s mx ex].
  - destruct s; simpl; intuition discriminate.
  - destruct s; simpl; intuition discriminate.
  - simpl; intuition discriminate.
  - rewrite SFeqb_finite_refl. destruct s; simpl; intuition discriminate.
Qed.

Lemma fps_test_guard a b :
  (if float_ne a b then abs_diff_gt a b 0.001 else false) = abs_diff_gt a b 0.001.
Proof.
  unfold float_ne. destruct (PrimFloat.eqb a b) eqn:E; simpl; [|reflexivity].
  symmetry. now apply eqb_abs_diff_gt.
Qed.

Lemma size_ne_spec a b : size_ne a b = true <-> a <> b.
Proof.
  unfold size_ne. destruct a as [aw ah], b as [bw bh]; simpl.
  rewrite negb_true_iff, andb_false_iff, !Z.eqb_neq.
  split.
  - intros [H|H] E; inversion E; contradiction.
  - intros H. destruct (Z.eq_dec aw bw) as [->|]; [|now left].
    right. intros ->. now apply H.
Qed.

(** ** [verify_videos] *)

Lemma differsb_spec b v : differsb b v = true <-> differs b v.
Proof.
  unfold differsb, differs.
  rewrite !orb_true_iff, size_ne_spec. tauto.
Qed.

Lemma differs_dec b v : {differs b v} + {~ differs b v}.
Proof.
  destruct (differsb b v) eqn:E.
  - left. now apply differsb_spec.
  - right. intros H. apply differsb_spec in H. congruence.
Qed.

(** *** Closing the tracked clips *)

Lemma close_if_open (rs : list bool) i :
  (if default false (rs !! i) then <[i := false]> rs else rs) = <[i := false]> rs.
Proof.
  destruct (rs !! i) as [[]|] eqn:E; simpl; [reflexivity| |].
  - symmetry. now apply list_insert_id.
  - symmetry. apply list_insert_ge. now apply lookup_ge_None.
Qed.

Lemma close_loop_exact cs :
  forall f,
    for_ cs (fun clip =>
      open <- lift (reader_is_not_None clip) ;;
      if open then lift (close clip) else ret tt) f
    = (Return tt,
       {| machine := set_readers (close_all cs) (machine f); clips := clips f |}).
Proof.
  induction cs as [|c cs IH]; intros [m cl].
  - destruct m; reflexivity.
  - simpl for_. unfold bind at 1.
    assert ((open <- lift (reader_is_not_None c) ;;
             if open then lift (close c) else ret tt) {| machine := m; clips := cl |}
            = (Return tt,
               {| machine := set_readers (fun rs => <[clip_id c := false]> rs) m;
                  clips := cl |})) as ->.
    { unfold bind, lift, reader_is_not_None, close, ret. simpl.
      pose proof (close_if_open (readers m) (clip_id c)) as H.
      destruct (default false (readers m !! clip_id c)); simpl.
      - reflexivity.
      - unfold set_readers. rewrite <- H. now destruct m. }
    rewrite IH. reflexivity.
Qed.

Lemma close_clips_exact f :
  close_clips f
  = (Return tt,
     {| machine := set_readers (close_all (clips f)) (machine f); clips := clips f |}).
Proof. unfold close_clips, bind, get_clips. apply close_loop_exact. Qed.

Lemma close_all_length cs : forall rs, length (close_all cs rs) = length rs.
Proof.
  induction cs as [|c cs IH]; intros rs; [reflexivity|].
  simpl. now rewrite IH, length_insert.
Qed.

(** A reader that is not tracked in [cs] is not touched. *)
Lemma close_all_lookup_ne cs j :
  forall rs,
    Forall (fun c => clip_id c <> j) cs ->
    close_all cs rs !! j = rs !! j.
Proof.
  induction cs as [|c cs IH]; intros rs Hne; [reflexivity|].
  inversion Hne; subst. simpl. rewrite IH by assumption.
  now apply list_lookup_insert_ne.
Qed.

(** The readers of the clips built for [es] on top of [rs] are all closed. *)
Lemma close_all_objects es :
  forall vs rs tl,
    length es = length vs ->
    close_all (objects (length rs) es vs) (rs ++ repeat true (length es) ++ tl)
    = rs ++ repeat false (length es) ++ tl.
Proof.
  induction es as [|e es IH]; intros vs rs tl Hlen.
  - reflexivity.
  - destruct vs as [|v vs]; [discriminate|]. injection Hlen as Hlen.
    simpl. rewrite <- (Nat.add_0_r (length rs)) at 2.
    rewrite insert_app_r. simpl.
    specialize (IH vs (rs ++ [false]) tl Hlen).
    rewrite length_app, Nat.add_1_r, <- !app_assoc in IH. exact IH.
Qed.

(** Closing the tracked clips never raises and prints nothing. *)
Lemma close_clips_returns f :
  exists f',
    close_clips f = (Return tt, f')
    /\ stdout (machine f') = stdout (machine f)
    /\ effects (machine f') = effects (machine f).
Proof. rewrite close_clips_exact. eexists. repeat split. Qed.

Section VerifyFacts.
Variable w : World.

Lemma exists_has_video e v : has_video w e v -> exists_ w (path e) = true.
Proof. unfold has_video, exists_. now intros ->. Qed.

Lemma VideoFileClip_has_video e v m :
  has_video w e v ->
  VideoFileClip w (path e) m =
    (Return (object_of (length (readers m)) e v),
     set_readers (fun rs => rs ++ [true]) m).
Proof. unfold has_video, VideoFileClip. now intros ->. Qed.

(** One round of the comparison loop on a clip within tolerance. *)
Lemma check_video_within bp b i e v f :
  has_video w e v -> ~ differs b v ->
  check_video w bp (size b) (fps b) (duration b) i e f =
    (Return tt,
     {| machine := set_readers (fun rs => rs ++ [true])
                     (add_line (PrChecking i (path e)) (machine f));
        clips := clips f ++ [object_of (length (readers (machine f))) e v] |}).
Proof.
  intros Hv Hd.
  assert (differsb b v = false) as Hb.
  { destruct (differsb b v) eqn:E; [|reflexivity].
    apply differsb_spec in E. contradiction. }
  unfold differsb in Hb. apply orb_false_iff in Hb as [Hb Hdur].
  apply orb_false_iff in Hb as [Hsz Hfps].
  unfold check_video, bind, lift, print, raise, ret, clips_append. simpl.
  rewrite (exists_has_video _ _ Hv). simpl.
  rewrite (VideoFileClip_has_video _ _ _ Hv). simpl.
  rewrite Hsz. 
  destruct (float_ne (fps v) (fps b)); rewrite ?Hfps, Hdur; reflexivity.
Qed.

(** One round of the comparison loop on a clip out of tolerance: the clip
    has been opened, and the round raises before [clips.append(clip)]. *)
Lemma check_video_differs bp b i e v f :
  has_video w e v -> differs b v ->
  exists x,
    check_video w bp (size b) (fps b) (duration b) i e f =
      (Raise x,
       {| machine := set_readers (fun rs => rs ++ [true])
                       (add_line (PrChecking i (path e)) (machine f));
          clips := clips f |})
    /\ is_PropertyMismatchError x.
Proof.
  intros Hv Hd.
  unfold check_video, bind, lift, print, raise, ret, clips_append. simpl.
  rewrite (exists_has_video _ _ Hv). simpl.
  rewrite (VideoFileClip_has_video _ _ _ Hv). simpl.
  destruct (size_ne (size v) (size b)) eqn:Hsz.
  { eexists; split; [reflexivity|exact I]. }
  pose proof (fps_test_guard (fps v) (fps b)) as Hg.
  destruct (abs_diff_gt (fps v) (fps b) 0.001) eqn:Hfps.
  { destruct (float_ne (fps v) (fps b)); [|discriminate].
    eexists; split; [reflexivity|exact I]. }
  assert (abs_diff_gt (duration v) (duration b) 0.1 = true) as Hdur.
  { destruct Hd as [Hd|[Hd|Hd]]; [|congruence|exact Hd].
    apply size_ne_spec in Hd. congruence. }
  destruct (float_ne (fps v) (fps b)); rewrite Hdur;
    eexists; (split; [reflexivity|exact I]).
Qed.

(** The comparison loop: it raises a property mismatch when some clip is
    out of tolerance and completes otherwise. Lines are only added to the
    output. *)
Lemma check_loop bp b rest :
  forall vs i f,
    Forall2 (has_video w) rest vs ->
    exists f' ls,
      stdout (machine f') = stdout (machine f) ++ ls /\
      ((Exists (differs b) vs /\
        exists x, for_enumerate i rest
                    (check_video w bp (size b) (fps b) (duration b)) f
                  = (Raise x, f') /\ is_PropertyMismatchError x)
       \/
       (Forall (fun v => ~ differs b v) vs /\
        for_enumerate i rest
          (check_video w bp (size b) (fps b) (duration b)) f
        = (Return tt, f'))).
Proof.
  induction rest as [|e rest IH]; intros vs i f Hvs.
  - inversion Hvs; subst. exists f, []. split; [now rewrite app_nil_r|].
    right. split; [constructor|reflexivity].
  - inversion Hvs as [|? v ? vs' Hv Hrest]; subst.
    destruct (differs_dec b v) as [Hd|Hd].
    + destruct (check_video_differs bp b i e v f Hv Hd) as (x & Hx & HPM).
      eexists _, [_]. split; [|left; split; [now left|]].
      2:{ exists x. split; [|exact HPM]. simpl. apply (bind_Raise _ _ _ _ _ Hx). }
      reflexivity.
    + pose proof (check_video_within bp b i e v f Hv Hd) as Hok.
      set (f1 := {| machine := set_readers (fun rs => rs ++ [true])
                                 (add_line (PrChecking i (path e)) (machine f));
                    clips := clips f ++ [object_of (length (readers (machine f))) e v] |})
        in Hok.
      destruct (IH vs' (S i) f1 Hrest) as (f' & ls & Hout & Hcase).
      exists f', (PrChecking i (path e) :: ls). split.
      { rewrite Hout. simpl. now rewrite <- app_assoc. }
      simpl. rewrite !(bind_Return _ _ _ _ _ Hok).
      destruct Hcase as [[Hex Hr]|[Hall Hr]].
      * left. split; [now right|exact Hr].
      * right. split; [now constructor|exact Hr].
Qed.

(** The handlers around the [try] block keep the outcome of the block. *)
Lemma cleanup_keeps_outcome {A} (body : M Frame A) f r f1 :
  body f = (r, f1) ->
  exists f2,
    try_finally (try_except body (fun e => close_clips ;; raise e)) close_clips f
      = (r, f2)
    /\ stdout (machine f2) = stdout (machine f1)
    /\ effects (machine f2) = effects (machine f1).
Proof.
  intros Hb. unfold try_finally, try_except. rewrite Hb.
  destruct r as [a|x].
  - destruct (close_clips_returns f1) as (f2 & -> & Ho & He).
    exists f2. auto.
  - destruct (close_clips_returns f1) as (f2 & Hc & Ho & He).
    rewrite (bind_Return _ _ _ _ _ Hc). unfold raise.
    destruct (close_clips_returns f2) as (f3 & -> & Ho' & He').
    exists f3. repeat split; congruence.
Qed.

(** [verify_videos] on a list whose files all exist and open. *)
Lemma verify_videos_cons e rest b vrest m :
  Forall2 (has_video w) (e :: rest) (b :: vrest) ->
  exists m' ls,
    stdout m' =
      stdout m ++ [PrVerifying; PrLoadingBase (path e);
                   PrBaseProperties (size b) (fps b) (duration b)] ++ ls
    /\ ((Exists (differs b) vrest /\
         exists x, verify_videos w (e :: rest) m = (Raise x, m')
                   /\ is_PropertyMismatchError x)
        \/
        (Forall (fun v => ~ differs b v) vrest /\
         verify_videos w (e :: rest) m = (Return None, m'))).
Proof.
  intros Hvs. inversion Hvs as [|? ? ? ? Hb Hrest]; subst.
  set (f0 := {| machine := add_line PrVerifying m; clips := [] |}).
  assert (exists f1 ls,
    stdout (machine f1) =
      stdout m ++ [PrVerifying; PrLoadingBase (path e);
                   PrBaseProperties (size b) (fps b) (duration b)] ++ ls
    /\ ((Exists (differs b) vrest /\
         exists x, verify_body w (e :: rest) (path e) f0 = (Raise x, f1)
                   /\ is_PropertyMismatchError x)
        \/
        (Forall (fun v => ~ differs b v) vrest /\
         verify_body w (e :: rest) (path e) f0 = (Return tt, f1)))) as Hbody.
  { unfold verify_body, bind, lift, print, raise, ret, clips_append. simpl.
    rewrite (exists_has_video _ _ Hb). simpl.
    rewrite (VideoFileClip_has_video _ _ _ Hb). simpl.
    match goal with
    | |- context [for_enumerate 2 rest _ ?f] =>
        destruct (check_loop (path e) b rest vrest 2 f Hrest)
          as (f1 & ls & Hout & [[Hex (x & -> & HPM)]|[Hall ->]])
    end.
    - exists f1, ls. split; [|left; split; [exact Hex|eauto]].
      rewrite Hout. simpl. rewrite <- !app_assoc. reflexivity.
    - eexists _, (ls ++ [PrAllMatch]). split; [|right; split; [exact Hall|reflexivity]].
      simpl. rewrite Hout. simpl. rewrite <- !app_assoc. reflexivity. }
  destruct Hbody as (f1 & ls & Hout & Hcase).
  unfold verify_videos.
  rewrite (bind_Return (lift (print PrVerifying)) _
             {| machine := m; clips := [] |} tt f0 eq_refl).
  destruct Hcase as [[Hex (x & Hx & HPM)]|[Hall Hr]].
  - destruct (cleanup_keeps_outcome _ _ _ _ Hx) as (f2 & Hc & Ho & _).
    rewrite (bind_Raise _ _ _ _ _ Hc).
    exists (machine f2), ls. split; [congruence|].
    left. split; [exact Hex|]. exists x. split; [reflexivity|exact HPM].
  - destruct (cleanup_keeps_outcome _ _ _ _ Hr) as (f2 & Hc & Ho & _).
    rewrite (bind_Return _ _ _ _ _ Hc).
    exists (machine f2), ls. split; [congruence|].
    right. split; [exact Hall|reflexivity].
Qed.
End VerifyFacts.

(** *** The readers that [verify_videos] leaves behind *)

Lemma repeat_lookup_last {A} (x : A) k : repeat x (S k) !! k = Some x.
Proof. induction k as [|k IH]; [reflexivity|exact IH]. Qed.

Section VerifyReaders.
Variable w : World.

(** The readers and the tracked clips after the comparison loop. When the
    loop raises, the clip of the offending entry is open and not tracked. *)
Lemma check_loop_readers bp b rest :
  forall vs i f,
    Forall2 (has_video w) rest vs ->
    let n := length (readers (machine f)) in
    match for_enumerate i rest (check_video w bp (size b) (fps b) (duration b)) f with
    | (Return _, f') =>
        readers (machine f') = readers (machine f) ++ repeat true (length rest)
        /\ clips f' = clips f ++ objects n rest vs
    | (Raise _, f') =>
        exists k,
          readers (machine f') = readers (machine f) ++ repeat true (S k)
          /\ (Forall (fun c => clip_id c < n) (clips f) ->
              Forall (fun c => clip_id c < n + k) (clips f'))
    end.
Proof.
  induction rest as [|e rest IH]; intros vs i f Hvs n.
  - inversion Hvs; subst. simpl. now rewrite !app_nil_r.
  - inversion Hvs as [|? v ? vs' Hv Hrest]; subst.
    simpl for_enumerate. unfold bind at 1.
    destruct (differs_dec b v) as [Hd|Hd].
    + destruct (check_video_differs w bp b i e v f Hv Hd) as (x & -> & _).
      exists 0. split; [reflexivity|].
      simpl. now rewrite Nat.add_0_r.
    + rewrite (check_video_within w bp b i e v f Hv Hd).
      match goal with
      | |- context [for_enumerate (S i) rest _ ?f1] =>
          specialize (IH vs' (S i) f1 Hrest);
          destruct (for_enumerate (S i) rest
                      (check_video w bp (size b) (fps b) (duration b)) f1)
            as [[[]|x] f']
      end; simpl in IH.
      * destruct IH as [Hr Hc]. rewrite Hr, Hc, length_app, Nat.add_1_r.
        rewrite <- !app_assoc. split; reflexivity.
      * destruct IH as (k & Hr & Hc). exists (S k). split.
        { rewrite Hr, <- app_assoc. reflexivity. }
        intros Htracked. rewrite length_app, Nat.add_1_r in Hc.
        replace (n + S k) with (S (length (readers (machine f))) + k) by (subst n; lia).
        apply Hc. apply Forall_app. split.
        -- eapply Forall_impl; [exact Htracked|]. simpl. intros c Hlt. subst n. lia.
        -- repeat constructor.
Qed.

(** [verify_videos] on a list whose files all exist and open: when it
    returns, every reader it opened is closed; when it raises, which it only
    does for a property mismatch, a reader it opened is still open. *)
Lemma verify_videos_readers e rest b vrest m :
  Forall2 (has_video w) (e :: rest) (b :: vrest) ->
  match verify_videos w (e :: rest) m with
  | (Return _, m') => readers m' = readers m ++ repeat false (length (e :: rest))
  | (Raise _, m') =>
      exists j, length (readers m) <= j /\ readers m' !! j = Some true
  end.
Proof.
  intros Hvs. inversion Hvs as [|? ? ? ? Hb Hrest]; subst.
  unfold verify_videos.
  rewrite (bind_Return (lift (print PrVerifying)) _
             {| machine := m; clips := [] |} tt _ eq_refl).
  unfold bind at 1. unfold try_finally, try_except.
  unfold verify_body.
  rewrite (bind_Return (lift (print _)) _ _ tt _ eq_refl).
  rewrite (exists_has_video _ _ _ Hb). cbn [negb].
  rewrite (bind_Return (ret tt) _ _ tt _ eq_refl).
  unfold bind at 1, lift at 1.
  rewrite (VideoFileClip_has_video _ _ _ _ Hb).
  rewrite (bind_Return (clips_append _) _ _ tt _ eq_refl).
  rewrite (bind_Return (lift (print _)) _ _ tt _ eq_refl).
  cbn [tail clip_size clip_fps clip_duration object_of machine clips].
  unfold bind at 1.
  match goal with
  | |- context [for_enumerate 2 rest _ ?f1] =>
      pose proof (check_loop_readers (path e) b rest vrest 2 f1 Hrest) as Hloop;
      destruct (for_enumerate 2 rest
                  (check_video w (path e) (size b) (fps b) (duration b)) f1)
        as [[[]|x] f']
  end; simpl in Hloop.
  - destruct Hloop as [Hr Hc].
    unfold lift at 1, print at 1.
    rewrite close_clips_exact. unfold ret. simpl.
    rewrite Hr, Hc.
    pose proof (close_all_objects (e :: rest) (b :: vrest) (readers m) []
                  (f_equal S (Forall2_length _ _ _ Hrest))) as Hclose.
    rewrite !app_nil_r in Hclose. simpl in Hclose |- *.
    rewrite <- app_assoc, length_app, Nat.add_1_r. exact Hclose.
  - destruct Hloop as (k & Hr & Hc).
    rewrite (bind_Return _ _ _ _ _ (close_clips_exact f')).
    unfold raise. rewrite close_clips_exact. simpl.
    exists (S (length (readers m)) + k). split; [lia|].
    assert (Forall (fun c => clip_id c <> S (length (readers m)) + k) (clips f'))
      as Hne.
    { rewrite length_app, Nat.add_1_r in Hc.
      eapply Forall_impl; [apply Hc; repeat constructor|].
      simpl. intros c Hlt. lia. }
    rewrite !close_all_lookup_ne by exact Hne.
    rewrite Hr, <- app_assoc. simpl.
    rewrite lookup_app_r by lia.
    replace (S (length (readers m) + k) - length (readers m)) with (S k) by lia.
    apply repeat_lookup_last.
Qed.
End VerifyReaders.

(** Every property mismatch leaves a reader open that the call opened. *)
Lemma verify_mismatch_leaks w es vs m x m' :
  Forall2 (has_video w) es vs ->
  verify_videos w es m = (Raise x, m') ->
  is_PropertyMismatchError x ->
  exists j, length (readers m) <= j /\ readers m' !! j = Some true.
Proof.
  intros Hvs Hrun HPM.
  destruct Hvs as [|e b rest vrest Hb Hrest].
  - simpl in Hrun. injection Hrun as <- _. destruct HPM.
  - pose proof (verify_videos_readers w e rest b vrest m
                  (List.Forall2_cons _ _ Hb Hrest)) as H.
    rewrite Hrun in H. exact H.
Qed.

(** A call that returns has closed every reader it opened. *)
Lemma verify_success_closes w es vs m r m' :
  Forall2 (has_video w) es vs ->
  verify_videos w es m = (Return r, m') ->
  readers m' = readers m ++ repeat false (length es).
Proof.
  intros Hvs Hrun.
  destruct Hvs as [|e b rest vrest Hb Hrest]; [discriminate|].
  pose proof (verify_videos_readers w e rest b vrest m
                (List.Forall2_cons _ _ Hb Hrest)) as H.
  rewrite Hrun in H. exact H.
Qed.

(** C1: on a list whose files all exist and open, [verify_videos] raises a
    property mismatch exactly when some entry after the first has another
    frame size than the first, or a frame rate further than 0.001 from it, or
    a duration further than 0.1 from it; when every entry is within these
    tolerances of the first, the call raises nothing. *)
Theorem verify_raises_mismatch_iff w video_configs vs m :
  Forall2 (has_video w) video_configs vs ->
  ((exists x, fst (verify_videos w video_configs m) = Raise x
              /\ is_PropertyMismatchError x)
   <-> (exists b rest, vs = b :: rest /\ Exists (differs b) rest))
  /\ (video_configs <> [] ->
      (forall b rest, vs = b :: rest -> Forall (fun v => ~ differs b v) rest) ->
      fst (verify_videos w video_configs m) = Return None).
Proof.
  intros Hvs. destruct Hvs as [|e b rest vrest Hb Hrest].
  - split; [split|].
    + intros (x & Hx & HPM). simpl in Hx. injection Hx as <-. destruct HPM.
    + intros (b & rest & Hnil & _). discriminate.
    + intros Hne. now destruct Hne.
  - destruct (verify_videos_cons w e rest b vrest m (List.Forall2_cons _ _ Hb Hrest))
      as (m' & ls & _ & [[Hex (x & Hx & HPM)]|[Hall Hr]]).
    + split; [split|].
      * intros _. exists b, vrest. auto.
      * intros _. exists x. rewrite Hx. auto.
      * intros _ Hwithin. specialize (Hwithin b vrest eq_refl).
        apply Exists_exists in Hex as (v & Hin & Hd).
        rewrite Forall_forall in Hwithin. 
        destruct (Hwithin v Hin Hd).
    + split; [split|].
      * intros (x & Hx & _). rewrite Hr in Hx. discriminate.
      * intros (b' & rest' & Heq & Hex). injection Heq as <- <-.
        apply Exists_exists in Hex as (v & Hin & Hd).
        rewrite Forall_forall in Hall. destruct (Hall v Hin Hd).
      * intros _ _. now rewrite Hr.
Qed.

Lemma verify_raises_mismatch_iff_witness :
  Forall2 (has_video Example.world)
    Example.mismatched
    [Example.clip_360p; Example.clip_480p]
  /\ exists x,
       fst (verify_videos Example.world
              Example.mismatched Example.fresh)
       = Raise x /\ is_PropertyMismatchError x.
Proof.
  assert (Forall2 (has_video Example.world)
            Example.mismatched
            [Example.clip_360p; Example.clip_480p]) as H.
  { repeat constructor. }
  split; [exact H|].
  apply (proj1 (verify_raises_mismatch_iff _ _ _ Example.fresh H)).
  exists Example.clip_360p, [Example.clip_480p]. split; [reflexivity|].
  left. left. simpl. discriminate.
Defined.

(** C10: on a list of one entry whose file exists and opens,
    [verify_videos] compares nothing and raises nothing, whatever the size,
    frame rate and duration of the clip: it prints no "Checking video" line,
    closes the one handle it opened and returns. *)
Theorem verify_single_entry w e v m :
  has_video w e v ->
  verify_videos w [e] m =
    (Return None,
     {| readers := readers m ++ [false];
        stdout := stdout m ++ [PrVerifying; PrLoadingBase (path e);
                               PrBaseProperties (size v) (fps v) (duration v);
                               PrAllMatch];
        effects := effects m |}).
Proof.
  intros Hv.
  assert (forall rs b, default false ((rs ++ [b]) !! length rs) = b) as Hlook.
  { intros rs b0. now rewrite list_lookup_middle. }
  assert (forall rs b, <[length rs := false]> (rs ++ [b]) = rs ++ [false]) as Hins.
  { intros rs b0. rewrite <- (Nat.add_0_r (length rs)) at 1. now rewrite insert_app_r. }
  unfold verify_videos, verify_body, try_finally, try_except, close_clips,
    get_clips, bind, lift, print, raise, ret, clips_append,
    reader_is_not_None, close.
  cbn. rewrite (exists_has_video _ _ _ Hv). cbn.
  rewrite (VideoFileClip_has_video _ _ _ _ Hv). cbn.
  unfold bind, ret, lift. cbn.
  rewrite Hlook. unfold add_line, set_readers. cbn.
  rewrite Hins, <- !app_assoc. reflexivity.
Qed.

Lemma verify_single_entry_witness :
  has_video Example.world (Example.entry "b.mp4" "B") Example.clip_480p
  /\ fst (verify_videos Example.world [Example.entry "b.mp4" "B"] Example.fresh)
     = Return None.
Proof.
  split; [reflexivity|].
  rewrite (verify_single_entry Example.world (Example.entry "b.mp4" "B")
             Example.clip_480p Example.fresh); reflexivity.
Defined.

(** C4, as the specification states it, fails: on two identical clips the
    call returns [None], not the properties of the first clip. *)
Lemma verify_returns_no_baseline :
  ~ returns_baseline Example.world
      Example.identical
      [Example.clip_360p; Example.clip_360p] Example.fresh.
Proof.
  intros H. destruct H as (b & _ & Hr).
  - repeat constructor.
  - intros b rest Heq. injection Heq as <- <-.
    repeat constructor. intros Hd. apply differsb_spec in Hd.
    vm_compute in Hd. discriminate.
  - vm_compute in Hr. discriminate.
Qed.

(** C4, amended: on a non-empty list whose files exist, open and agree with
    the first within tolerance, [verify_videos] raises nothing and returns
    no value ([None]); the baseline it establishes and prints is the size,
    frame rate and duration of the first entry's clip. *)
Theorem verify_returns_None w e rest b vrest m :
  Forall2 (has_video w) (e :: rest) (b :: vrest) ->
  Forall (fun v => ~ differs b v) vrest ->
  exists m',
    verify_videos w (e :: rest) m = (Return None, m')
    /\ In (PrBaseProperties (size b) (fps b) (duration b)) (stdout m').
Proof.
  intros Hvs Hall.
  destruct (verify_videos_cons w e rest b vrest m Hvs)
    as (m' & ls & Hout & [[Hex _]|[_ Hr]]).
  - apply Exists_exists in Hex as (v & Hin & Hd).
    rewrite Forall_forall in Hall. destruct (Hall v Hin Hd).
  - exists m'. split; [exact Hr|].
    rewrite Hout. apply in_or_app. right. simpl. auto.
Qed.

Lemma verify_returns_None_witness :
  exists m',
    verify_videos Example.world
      Example.two_videos Example.fresh
    = (Return None, m')
    /\ In (PrBaseProperties (640, 360)%Z 30 2) (stdout m').
Proof.
  apply (verify_returns_None Example.world (Example.entry "a.mp4" "A")
           [Example.entry "c.mp4" "C"] Example.clip_360p
           [Example.clip_360p_drift] Example.fresh).
  - repeat constructor.
  - repeat constructor. intros Hd. apply differsb_spec in Hd.
    vm_compute in Hd. discriminate.
Defined.

(** Clips with the properties of the first one are within tolerance of it:
    identical clips pass the verification. *)
Lemma identical_within_tolerance v : ~ differs v v.
Proof.
  intros [H|[H|H]].
  - now apply H.
  - rewrite abs_diff_gt_same in H by reflexivity. discriminate.
  - rewrite abs_diff_gt_same in H by reflexivity. discriminate.
Qed.

Lemma verify_identical_clips w e rest b vrest m :
  Forall2 (has_video w) (e :: rest) (b :: vrest) ->
  Forall (fun v => v = b) vrest ->
  exists m', verify_videos w (e :: rest) m = (Return None, m').
Proof.
  intros Hvs Hsame.
  destruct (verify_videos_cons w e rest b vrest m Hvs)
    as (m' & ls & _ & [[Hex _]|[_ Hr]]); [|eauto].
  apply List.Exists_exists in Hex as (v & Hin & Hd).
  rewrite List.Forall_forall in Hsame. rewrite (Hsame v Hin) in Hd.
  destruct (identical_within_tolerance b Hd).
Qed.

(** C2 fails on the code: when the second clip has another frame size,
    [verify_videos] raises the mismatch while the reader of that clip, which
    the call opened, is still open. *)
Theorem verify_leaks_mismatching_clip :
  exists x m',
    verify_videos Example.world
      Example.mismatched Example.fresh
    = (Raise x, m')
    /\ is_PropertyMismatchError x
    /\ readers m' = [false; true].
Proof.
  eexists _, _. split; [vm_compute; reflexivity|].
  split; [exact I|reflexivity].
Qed.

(** ** [process_and_composite_videos] *)

Section CompositeFacts.
Variable w : World.

(** With a band height that [ColorClip] accepts, the loop opens one clip per
    entry, in order, closes none, and appends the column of each entry. *)
Lemma composite_loop ow cfg es :
  ColorClip_error (text_area_height cfg) = None ->
  forall vs i l m,
    Forall2 (has_video w) es vs ->
    exists loaded ls,
      for_enumerate_fold i es (composite_entry w ow cfg) l m =
        (Return
           {| combined_vertical_clips :=
                combined_vertical_clips l
                ++ zip_with (column ow cfg) es (objects (length (readers m)) es vs);
              loaded_clips := loaded;
              video_clip :=
                match last (objects (length (readers m)) es vs) with
                | Some o => Some o
                | None => video_clip l
                end |},
         {| readers := readers m ++ repeat true (length es);
            stdout := stdout m ++ ls;
            effects := effects m |}).
Proof.
  intros Hh. induction es as [|e es IH]; intros vs i l m Hvs.
  - inversion Hvs; subst. exists (loaded_clips l), []. simpl.
    rewrite !app_nil_r. destruct l, m; reflexivity.
  - inversion Hvs as [|? v ? vs' Hv Hrest]; subst.
    simpl for_enumerate_fold.
    assert (composite_entry w ow cfg i e l m =
            (Return
               {| combined_vertical_clips :=
                    combined_vertical_clips l
                    ++ [column ow cfg e (object_of (length (readers m)) e v)];
                  loaded_clips :=
                    (((loaded_clips l
                       ++ [VideoClip (object_of (length (readers m)) e v)])
                      ++ [ColorClip (ow, text_area_height cfg) (ColorRGB 255 255 255)
                            false (duration v)])
                     ++ [set_duration
                           (set_position
                              (TextClip (description e) (font_size cfg)
                                 (font_color cfg) "caption"
                                 (PrimFloat.mul (float_of_int ow) 0.9))
                              "center")
                           (duration v)])
                    ++ [caption_band ow cfg e (object_of (length (readers m)) e v)];
                  video_clip := Some (object_of (length (readers m)) e v) |},
             set_readers (fun rs => rs ++ [true])
               (add_line (PrProcessing (i + 1) (path e)) m))) as Hstep.
    { unfold composite_entry, ColorClip_init, bind, print, ret. simpl.
      rewrite (VideoFileClip_has_video _ _ _ _ Hv), Hh. reflexivity. }
    rewrite (bind_Return _ _ _ _ _ Hstep).
    match goal with
    | |- context [for_enumerate_fold (S i) es _ ?l1 ?m1] =>
        destruct (IH vs' (S i) l1 m1 Hrest) as (loaded & ls & ->)
    end.
    exists loaded, (PrProcessing (i + 1) (path e) :: ls).
    simpl. rewrite length_app, Nat.add_1_r. simpl.
    rewrite <- !app_assoc. simpl.
    rewrite last_cons.
    destruct (last (objects (S (length (readers m))) es vs')); reflexivity.
Qed.

(** A run of [process_and_composite_videos] on a non-empty list whose files
    all exist and open, with a band height that [ColorClip] accepts and an
    encoder that works. *)
Lemma compose_run e rest v vrest out cfg m :
  encoder_fails w = false ->
  ColorClip_error (text_area_height cfg) = None ->
  Forall2 (has_video w) (e :: rest) (v :: vrest) ->
  let objs := objects (S (length (readers m))) (e :: rest) (v :: vrest) in
  exists m' olast,
    process_and_composite_videos w (e :: rest) out cfg m = (Return tt, m')
    /\ last objs = Some olast
    /\ readers m' = readers m ++ false :: repeat true (length (e :: rest))
    /\ effects m' =
         effects m
         ++ [Write_videofile
               (arrangement (zip_with (column (fst (size v)) cfg) (e :: rest) objs))
               out "libx264" (clip_fps olast) 4 "medium"].
Proof.
  intros Henc Hh Hvs objs.
  pose proof Hvs as Hvs0. inversion Hvs0 as [|? ? ? ? Hv Hrest]; subst.
  assert (exists olast, last objs = Some olast) as [olast Hlast].
  { destruct (last objs) eqn:E; [eauto|]. apply last_None in E. discriminate. }
  assert (forall rs : list bool, <[length rs := false]> (rs ++ [true]) = rs ++ [false])
    as Hins.
  { intros rs. rewrite <- (Nat.add_0_r (length rs)) at 1. now rewrite insert_app_r. }
  destruct (size v) as [ow oh] eqn:Hsz.
  set (cols := zip_with (column ow cfg) (e :: rest) objs).
  assert (exists c cs, cols = c :: cs) as (c & cs & Hcols) by (simpl; eauto).
  assert (exists so,
    process_and_composite_videos w (e :: rest) out cfg m =
      (Return tt,
       {| readers := (readers m ++ [false]) ++ repeat true (length (e :: rest));
          stdout := so;
          effects := effects m
                     ++ [Write_videofile (arrangement cols) out "libx264"
                           (clip_fps olast) 4 "medium"] |})) as (so & Hrun).
  { unfold process_and_composite_videos.
    rewrite (bind_Return (print _) _ m tt _ eq_refl).
    rewrite (bind_Return (getitem (e :: rest) 0) _ _ e _ eq_refl).
    rewrite (bind_Return _ _ _ _ _ (VideoFileClip_has_video w e v _ Hv)).
    replace (clip_size (object_of _ e v)) with (size v) by reflexivity.
    rewrite Hsz. cbv beta iota.
    rewrite (bind_Return (close _) _ _ tt _ eq_refl).
    match goal with
    | |- context [bind (for_enumerate_fold 0 _ _ ?l1) _ ?m1] =>
        destruct (composite_loop ow cfg (e :: rest) Hh (v :: vrest) 0 l1 m1 Hvs)
          as (loaded & ls & Hloop)
    end.
    simpl readers in Hloop. rewrite Hins, length_app, Nat.add_1_r in Hloop.
    fold objs in Hloop. rewrite Hlast in Hloop.
    rewrite (bind_Return _ _ _ _ _ Hloop). clear Hloop.
    cbn [combined_vertical_clips video_clip app]. fold cols.
    simpl stdout. simpl effects.
    rewrite Hcols.
    rewrite (bind_Return (ret tt) _ _ tt _ eq_refl).
    destruct cs as [|c2 cs].
    - unfold bind, print, getitem, ret, write_videofile. simpl.
      rewrite Henc. eexists. reflexivity.
    - unfold bind, print, getitem, ret, write_videofile. simpl.
      rewrite Henc. eexists. reflexivity. }
  eexists _, olast. split; [exact Hrun|]. split; [exact Hlast|].
  simpl. rewrite <- app_assoc. split; reflexivity.
Qed.

Lemma last_objects n es vs vlast :
  Forall2 (has_video w) es vs ->
  last vs = Some vlast ->
  exists elast,
    last es = Some elast
    /\ last (objects n es vs) = Some (object_of (n + length es - 1) elast vlast).
Proof.
  intros Hvs. revert n. induction Hvs as [|e v es vs Hv Hvs IH]; intros n Hlast.
  - discriminate.
  - destruct Hvs as [|e2 v2 es vs Hv2 Hvs].
    + injection Hlast as <-. exists e. split; [reflexivity|].
      simpl. do 2 f_equal. lia.
    + rewrite last_cons_cons in Hlast.
      destruct (IH (S n) Hlast) as (elast & He & Ho).
      exists elast. split; [now rewrite last_cons_cons|].
      change (objects n (e :: e2 :: es) (v :: v2 :: vs))
        with (object_of n e v :: objects (S n) (e2 :: es) (v2 :: vs)).
      change (objects (S n) (e2 :: es) (v2 :: vs))
        with (object_of (S n) e2 v2 :: objects (S (S n)) es vs) in Ho |- *.
      rewrite last_cons_cons, Ho. do 2 f_equal. simpl. lia.
Qed.


End CompositeFacts.

(** ** [process_and_composite_videos] in any world *)

Lemma composite_entry_any w ow cfg i e l m :
  match composite_entry w ow cfg i e l m with
  | (Return l', m') =>
      effects m' = effects m
      /\ video_clip l' <> None
      /\ length (combined_vertical_clips l') = S (length (combined_vertical_clips l))
      /\ (exists v, has_video w e v)
      /\ ColorClip_error (text_area_height cfg) = None
  | (Raise x, m') =>
      effects m' = effects m
      /\ (x = OSError (MsgCannotOpen (path e))
          \/ ColorClip_error (text_area_height cfg) = Some x)
  end.
Proof.
  unfold composite_entry, ColorClip_init, bind, print, ret, raise, VideoFileClip,
    has_video.
  simpl.
  destruct (files w (path e)) as [|v| |]; simpl; auto.
  destruct (ColorClip_error (text_area_height cfg)) as [x|]; simpl; auto.
  split; [reflexivity|]. split; [discriminate|].
  split; [rewrite length_app; simpl; lia|]. eauto.
Qed.

Lemma composite_loop_any w ow cfg es :
  forall i l m,
    match for_enumerate_fold i es (composite_entry w ow cfg) l m with
    | (Return l', m') =>
        effects m' = effects m
        /\ (video_clip l' = None -> es = [] /\ video_clip l = None)
        /\ length (combined_vertical_clips l')
           = length (combined_vertical_clips l) + length es
        /\ (exists vs, Forall2 (has_video w) es vs)
        /\ (es <> [] -> ColorClip_error (text_area_height cfg) = None)
    | (Raise x, m') =>
        effects m' = effects m
        /\ ((exists p, In p (map path es) /\ x = OSError (MsgCannotOpen p))
            \/ ColorClip_error (text_area_height cfg) = Some x)
    end.
Proof.
  induction es as [|e es IH]; intros i l m.
  - simpl. split; [reflexivity|]. split; [now split|]. split; [lia|].
    split; [exists []; constructor|congruence].
  - simpl for_enumerate_fold. unfold bind at 1.
    pose proof (composite_entry_any w ow cfg i e l m) as Hstep.
    destruct (composite_entry w ow cfg i e l m) as [[l1|x] m1].
    + destruct Hstep as (He & Hv & Hlen & [v Hfile] & Hh).
      specialize (IH (S i) l1 m1).
      destruct (for_enumerate_fold (S i) es (composite_entry w ow cfg) l1 m1)
        as [[l2|x] m2].
      * destruct IH as (He' & Hv' & Hlen' & [vs Hvs] & _). split; [congruence|].
        split.
        { intros Hnone. destruct (Hv' Hnone) as [_ Hl1]. contradiction. }
        split; [simpl; lia|]. split; [|auto].
        exists (v :: vs). now constructor.
      * destruct IH as (He' & [(p & Hin & ->)|Hx]); (split; [congruence|]).
        -- left. exists p. split; [now right|reflexivity].
        -- now right.
    + destruct Hstep as (He & [->|Hx]); (split; [exact He|]).
      * left. exists (path e). split; [now left|reflexivity].
      * now right.
Qed.

(** The outcomes of [process_and_composite_videos], in any world. *)
Lemma compose_outcome w video_configs out cfg m :
  match process_and_composite_videos w video_configs out cfg m with
  | (Return _, m') =>
      video_configs <> []
      /\ encoder_fails w = false
      /\ ColorClip_error (text_area_height cfg) = None
      /\ (exists vs, Forall2 (has_video w) video_configs vs)
      /\ exists final f,
           effects m' = effects m ++ [Write_videofile final out "libx264" f 4 "medium"]
  | (Raise x, m') =>
      effects m' = effects m
      /\ ((video_configs = [] /\ x = IndexError MsgListIndex)
          \/ (video_configs <> [] /\ compose_error w video_configs cfg x))
  end.
Proof.
  destruct video_configs as [|e rest].
  { simpl. split; [reflexivity|]. now left. }
  unfold process_and_composite_videos.
  rewrite (bind_Return (print _) _ m tt _ eq_refl).
  rewrite (bind_Return (getitem (e :: rest) 0) _ _ e _ eq_refl).
  unfold bind at 1. unfold VideoFileClip at 1.
  assert (compose_error w (e :: rest) cfg (OSError (MsgCannotOpen (path e))))
    as Hopen.
  { left. exists (path e). split; [now left|reflexivity]. }
  destruct (files w (path e)) as [|v| |];
    try (split; [reflexivity|right; split; [discriminate|exact Hopen]]).
  clear Hopen. cbn [clip_size]. destruct (size v) as [ow oh].
  rewrite (bind_Return (close _) _ _ tt _ eq_refl).
  unfold bind at 1.
  match goal with
  | |- context [for_enumerate_fold 0 _ _ ?l1 ?m1] =>
      pose proof (composite_loop_any w ow cfg (e :: rest) 0 l1 m1) as Hloop;
      destruct (for_enumerate_fold 0 (e :: rest) (composite_entry w ow cfg) l1 m1)
        as [[l'|x] m']
  end.
  2:{ destruct Hloop as (He & Hx). split; [exact He|].
      right. split; [discriminate|].
      destruct Hx as [(p & Hin & ->)|Hx]; [left; eauto|right; now left]. }
  destruct Hloop as (He & Hv & Hlen & Hvs & Hh). simpl in He, Hlen.
  specialize (Hh ltac:(discriminate)).
  destruct (combined_vertical_clips l') as [|c cs]; [discriminate|].
  rewrite (bind_Return (ret tt) _ _ tt _ eq_refl).
  destruct (video_clip l') as [o|]; [|destruct (Hv eq_refl); discriminate].
  unfold bind, print, getitem, ret, raise, write_videofile.
  destruct cs; simpl; destruct (encoder_fails w) eqn:Henc; simpl.
  all: try (split; [discriminate|]; split; [reflexivity|];
            split; [exact Hh|]; split; [exact Hvs|];
            eexists _, _; rewrite He; reflexivity).
  all: split; [exact He|]; right; split; [discriminate|]; right; right; now split.
Qed.

(** A call of [process_and_composite_videos] that returns: the list was not
    empty, its files all opened, and the call has rendered the arrangement
    of the columns of the entries at the frame rate of the last clip that
    the loop opened. *)
Lemma compose_render w video_configs out cfg m m' :
  process_and_composite_videos w video_configs out cfg m = (Return tt, m') ->
  exists e rest v vrest olast,
    video_configs = e :: rest
    /\ Forall2 (has_video w) (e :: rest) (v :: vrest)
    /\ encoder_fails w = false
    /\ last (objects (S (length (readers m))) (e :: rest) (v :: vrest)) = Some olast
    /\ readers m' = readers m ++ false :: repeat true (length (e :: rest))
    /\ effects m' =
         effects m
         ++ [Write_videofile
               (arrangement
                  (zip_with (column (fst (size v)) cfg) (e :: rest)
                     (objects (S (length (readers m))) (e :: rest) (v :: vrest))))
               out "libx264" (clip_fps olast) 4 "medium"].
Proof.
  intros Hrun.
  pose proof (compose_outcome w video_configs out cfg m) as H.
  rewrite Hrun in H. destruct H as (Hne & Henc & Hh & [vs Hvs] & _).
  destruct Hvs as [|e v rest vrest Hv Hrest]; [now destruct Hne|].
  pose proof (List.Forall2_cons _ _ Hv Hrest) as Hvs.
  destruct (compose_run w e rest v vrest out cfg m Henc Hh Hvs)
    as (m2 & olast & Hrun2 & Hlast & Hr & Heff).
  rewrite Hrun in Hrun2. injection Hrun2 as <-.
  exists e, rest, v, vrest, olast. auto 10.
Qed.



(** After a verification that succeeded, the frame rate of the last clip is
    within 0.001 of the baseline. *)
Lemma verified_last_fps w es vs m b vlast :
  Forall2 (has_video w) es vs ->
  fst (verify_videos w es m) = Return None ->
  head vs = Some b ->
  last vs = Some vlast ->
  abs_diff_gt (fps vlast) (fps b) 0.001 = false.
Proof.
  intros Hvs Hr Hb Hlast.
  destruct Hvs as [|e v rest vrest Hv Hrest]; [discriminate|].
  injection Hb as ->.
  destruct (verify_videos_cons w e rest b vrest m (List.Forall2_cons _ _ Hv Hrest))
    as (m' & ls & _ & [[_ (x & Hx & _)]|[Hall _]]).
  { rewrite Hx in Hr. discriminate. }
  destruct vrest as [|v2 vrest].
  - injection Hlast as <-. now apply abs_diff_gt_same.
  - rewrite last_cons_cons in Hlast.
    assert (In vlast (v2 :: vrest)) as Hin.
    { apply last_Some in Hlast as (l' & ->). apply in_or_app. right. now left. }
    rewrite List.Forall_forall in Hall. specialize (Hall vlast Hin).
    destruct (abs_diff_gt (fps vlast) (fps b) 0.001) eqn:E; [|reflexivity].
    destruct Hall. right. now left.
Qed.

(** The files of a list are videos in one way only. *)
Lemma has_video_unique w es :
  forall vs1 vs2,
    Forall2 (has_video w) es vs1 -> Forall2 (has_video w) es vs2 -> vs1 = vs2.
Proof.
  unfold has_video.
  induction es as [|e es IH]; intros vs1 vs2 H1 H2;
    inversion H1; inversion H2; subst; [reflexivity|].
  f_equal; [congruence|now apply IH].
Qed.

(** C7, as the specification states it, fails: two clips whose frame rates
    are 30 and 30.0005 pass the verification, and the composite is rendered
    at 30.0005, the rate of the second clip, not at the baseline 30. *)
Lemma compose_renders_off_baseline :
  ~ renders_at_baseline_fps Example.world
      Example.two_videos
      [Example.clip_360p; Example.clip_360p_drift]
      "out/compare.mp4"
      (Example.config Example.two_videos (ColorName "white")) Example.fresh.
Proof.
  intros H. destruct H as (b & c & Hb & Heff).
  - repeat constructor.
  - vm_compute. reflexivity.
  - injection Hb as <-.
    apply (f_equal (fun l => match l with
                             | [Write_videofile _ _ _ f _ _] => PrimFloat.eqb f 30
                             | _ => true
                             end)) in Heff.
    vm_compute in Heff. discriminate.
Qed.

(** C7, amended: whenever [process_and_composite_videos] completes, it has
    rendered the final composite to [output_path] with the codec libx264,
    four threads and the preset medium, at the frame rate of the clip of the
    last entry, which the function opened itself; after a verification of
    the same files that succeeded, this rate is within 0.001 of the
    baseline. *)
Theorem compose_renders_at_last_fps w video_configs output_path config m m' :
  process_and_composite_videos w video_configs output_path config m
    = (Return tt, m') ->
  exists vs vlast final,
    Forall2 (has_video w) video_configs vs
    /\ last vs = Some vlast
    /\ effects m'
       = effects m
         ++ [Write_videofile final output_path "libx264" (fps vlast) 4 "medium"]
    /\ (forall m0 b,
          fst (verify_videos w video_configs m0) = Return None ->
          head vs = Some b ->
          abs_diff_gt (fps vlast) (fps b) 0.001 = false).
Proof.
  intros Hrun.
  destruct (compose_render w _ _ _ _ _ Hrun)
    as (e & rest & v & vrest & olast & -> & Hvs & _ & Ho & _ & Heff).
  assert (exists vlast, last (v :: vrest) = Some vlast) as [vlast Hlast].
  { destruct (last (v :: vrest)) eqn:E; [eauto|]. apply last_None in E.
    discriminate. }
  destruct (last_objects w (S (length (readers m))) _ _ _ Hvs Hlast)
    as (elast & _ & Ho').
  rewrite Ho' in Ho. injection Ho as <-.
  exists (v :: vrest), vlast. eexists.
  split; [exact Hvs|]. split; [exact Hlast|]. split; [exact Heff|].
  intros m0 b Hr Hb. exact (verified_last_fps w _ _ m0 b vlast Hvs Hr Hb Hlast).
Qed.

Lemma compose_renders_at_last_fps_witness :
  exists final,
    effects
      (snd (process_and_composite_videos Example.world Example.two_videos
              "out/compare.mp4"
              (Example.config Example.two_videos (ColorName "white"))
              Example.fresh))
    = [Write_videofile final "out/compare.mp4" "libx264"
         (fps Example.clip_360p_drift) 4 "medium"].
Proof.
  destruct (compose_renders_at_last_fps Example.world Example.two_videos
              "out/compare.mp4"
              (Example.config Example.two_videos (ColorName "white"))
              Example.fresh _ eq_refl)
    as (vs & vlast & final & Hvs & Hlast & Heff & _).
  rewrite (has_video_unique Example.world Example.two_videos vs
             [Example.clip_360p; Example.clip_360p_drift] Hvs
             ltac:(repeat constructor)) in Hlast.
  injection Hlast as <-.
  exists final. exact Heff.
Defined.

(** C3 fails on the code: a run on one entry returns normally while the
    reader of the clip opened in the loop (reader 1; reader 0 is the probe
    for the dimensions, which is closed) is still open. No clip in
    [loaded_clips] is ever closed. *)
Theorem compose_leaves_clip_open :
  exists m',
    process_and_composite_videos Example.world Example.one_video
      "out/compare.mp4"
      (Example.config Example.one_video (ColorName "white")) Example.fresh
      = (Return tt, m')
    /\ readers m' = [false; true].
Proof. eexists. split; [vm_compute; reflexivity|reflexivity]. Qed.

(** On every run that completes, the probe is closed and each clip opened in
    the loop is left open. *)
Lemma compose_keeps_readers_open w video_configs out cfg m m' :
  process_and_composite_videos w video_configs out cfg m = (Return tt, m') ->
  readers m' = readers m ++ false :: repeat true (length video_configs).
Proof.
  intros Hrun.
  destruct (compose_render w _ _ _ _ _ Hrun)
    as (e & rest & v & vrest & olast & -> & _ & _ & _ & Hr & _).
  exact Hr.
Qed.

(** C5 fails on the code: the result of [process_and_composite_videos] does
    not depend on [text_area_color], and with the color "black" configured
    the background of the caption band is built with the color
    (255, 255, 255). Its size and duration are as the claim says. *)
Theorem compose_ignores_text_area_color :
  (forall w video_configs output_path vs o h c1 c2 fs fc m,
     process_and_composite_videos w video_configs output_path
       {| videos := vs; output_video := o; text_area_height := h;
          text_area_color := c1; font_size := fs; font_color := fc |} m
     = process_and_composite_videos w video_configs output_path
         {| videos := vs; output_video := o; text_area_height := h;
            text_area_color := c2; font_size := fs; font_color := fc |} m)
  /\ exists clip text,
       effects
         (snd (process_and_composite_videos Example.world
                 Example.one_video "out/compare.mp4"
                 (Example.config Example.one_video (ColorName "black")) Example.fresh))
       = [Write_videofile
            (clips_array
               [[VideoClip clip];
                [CompositeVideoClip
                   [ColorClip (640%Z, NInt 100) (ColorRGB 255 255 255) false 2;
                    text]
                   true]])
            "out/compare.mp4" "libx264" 30 4 "medium"].
Proof.
  split.
  - reflexivity.
  - eexists _, _. vm_compute. reflexivity.
Qed.

(** C8 fails on the code: on an empty list the function raises the
    [IndexError] of [video_configs[0]], before the test for an empty list of
    columns is reached. *)
Theorem compose_empty_list w output_path config m :
  process_and_composite_videos w [] output_path config m
  = (Raise (IndexError MsgListIndex), add_line (PrLoadingClips []) m).
Proof. reflexivity. Qed.

(** The test [if not combined_vertical_clips] never fires: no call raises
    its [ValueError]. *)
Lemma compose_guard_is_dead w video_configs output_path config m :
  fst (process_and_composite_videos w video_configs output_path config m)
  <> Raise (ValueError MsgNoCombined).
Proof.
  pose proof (compose_outcome w video_configs output_path config m) as H.
  destruct (process_and_composite_videos w video_configs output_path config m)
    as [[[]|x] m']; [discriminate|].
  destruct H as [_ [[_ ->]|[_ [(p & _ & ->)|[Hx|[-> _]]]]]]; try discriminate.
  unfold ColorClip_error in Hx.
  destruct (text_area_height config) as [b|h|y]; try (injection Hx as <-; discriminate).
  destruct (h <? 0)%Z; [injection Hx as <-|]; discriminate.
Qed.

(** ** [load_config] *)







(** * Further properties *)

(** ** What a computation keeps and what it raises *)

Section Keeps.
Context {St B : Type} (proj : St -> B).

Lemma keeps_ret {A} (a : A) : keeps proj (ret a).
Proof. intros s. reflexivity. Qed.

Lemma keeps_raise {A} e : keeps proj (@raise St A e).
Proof. intros s. reflexivity. Qed.

Lemma keeps_bind {A C} (c : M St A) (k : A -> M St C) :
  keeps proj c -> (forall a, keeps proj (k a)) -> keeps proj (bind c k).
Proof.
  intros Hc Hk s. unfold bind. specialize (Hc s).
  destruct (c s) as [[a|e] s1]; simpl in *; [|exact Hc].
  now rewrite Hk.
Qed.

Lemma keeps_if {A} (b : bool) (c1 c2 : M St A) :
  keeps proj c1 -> keeps proj c2 -> keeps proj (if b then c1 else c2).
Proof. now destruct b. Qed.

Lemma keeps_for {A} (l : list A) body :
  (forall x, keeps proj (body x)) -> keeps proj (for_ l body).
Proof.
  intros Hb. induction l as [|x l IH]; simpl.
  - apply keeps_ret.
  - apply keeps_bind; auto.
Qed.

Lemma keeps_for_enumerate {A} (l : list A) body :
  (forall i x, keeps proj (body i x)) ->
  forall i, keeps proj (for_enumerate i l body).
Proof.
  intros Hb. induction l as [|x l IH]; intros i; simpl.
  - apply keeps_ret.
  - apply keeps_bind; auto.
Qed.

Lemma keeps_for_enumerate_fold {A L} (l : list A) (body : nat -> A -> L -> M St L) :
  (forall i x acc, keeps proj (body i x acc)) ->
  forall i acc, keeps proj (for_enumerate_fold i l body acc).
Proof.
  intros Hb. induction l as [|x l IH]; intros i acc; simpl.
  - apply keeps_ret.
  - apply keeps_bind; auto.
Qed.

Lemma keeps_try_except {A} (body : M St A) handler :
  keeps proj body -> (forall e, keeps proj (handler e)) ->
  keeps proj (try_except body handler).
Proof.
  intros Hb Hh s. unfold try_except. specialize (Hb s).
  destruct (body s) as [[a|e] s1]; simpl in *; [exact Hb|].
  now rewrite Hh.
Qed.

Lemma keeps_try_finally {A} (body : M St A) final :
  keeps proj body -> keeps proj final -> keeps proj (try_finally body final).
Proof.
  intros Hb Hf s. unfold try_finally. specialize (Hb s).
  destruct (body s) as [r s1]. specialize (Hf s1).
  destruct (final s1) as [[[]|e] s2]; simpl in *; congruence.
Qed.
End Keeps.

Lemma keeps_lift {A B} (proj : Machine -> B) (c : M Machine A) :
  keeps proj c -> keeps (fun f => proj (machine f)) (lift c).
Proof.
  intros Hc f. unfold lift. specialize (Hc (machine f)).
  destruct (c (machine f)) as [r m']. exact Hc.
Qed.

Section RaisesOnly.
Context {St : Type} (P : Exception -> Prop).

Lemma raises_only_ret {A} (a : A) : raises_only P (@ret St A a).
Proof. intros s e s' H. discriminate. Qed.

Lemma raises_only_raise {A} e : P e -> raises_only P (@raise St A e).
Proof. intros He s e' s' H. injection H as <- _. exact He. Qed.

Lemma raises_only_bind {A C} (c : M St A) (k : A -> M St C) :
  raises_only P c -> (forall a, raises_only P (k a)) -> raises_only P (bind c k).
Proof.
  intros Hc Hk s e s' H. unfold bind in H.
  destruct (c s) as [[a|e1] s1] eqn:E.
  - exact (Hk a _ _ _ H).
  - injection H as <- _. exact (Hc _ _ _ E).
Qed.

Lemma raises_only_if {A} (b : bool) (c1 c2 : M St A) :
  raises_only P c1 -> raises_only P c2 -> raises_only P (if b then c1 else c2).
Proof. now destruct b. Qed.

Lemma raises_only_for {A} (l : list A) (body : A -> M St unit) :
  (forall x, In x l -> raises_only P (body x)) -> raises_only P (for_ l body).
Proof.
  induction l as [|x l IH]; intros Hb; simpl.
  - apply raises_only_ret.
  - apply raises_only_bind; [apply Hb; now left|].
    intros _. apply IH. intros y Hy. apply Hb. now right.
Qed.

Lemma raises_only_for_enumerate {A} (l : list A) (body : nat -> A -> M St unit) :
  (forall i x, In x l -> raises_only P (body i x)) ->
  forall i, raises_only P (for_enumerate i l body).
Proof.
  induction l as [|x l IH]; intros Hb i; simpl.
  - apply raises_only_ret.
  - apply raises_only_bind; [apply Hb; now left|].
    intros _. apply IH. intros j y Hy. apply Hb. now right.
Qed.

Lemma raises_only_for_enumerate_fold {A L} (l : list A)
    (body : nat -> A -> L -> M St L) :
  (forall i x acc, In x l -> raises_only P (body i x acc)) ->
  forall i acc, raises_only P (for_enumerate_fold i l body acc).
Proof.
  induction l as [|x l IH]; intros Hb i acc; simpl.
  - apply raises_only_ret.
  - apply raises_only_bind; [apply Hb; now left|].
    intros acc'. apply IH. intros j y a Hy. apply Hb. now right.
Qed.
End RaisesOnly.

Lemma raises_only_lift {A} P (c : M Machine A) :
  raises_only P c -> raises_only P (lift c).
Proof.
  intros Hc f e f' H. unfold lift in H.
  destruct (c (machine f)) as [r m'] eqn:E. injection H as -> _.
  exact (Hc _ _ _ E).
Qed.

(** ** [verify_videos] in any world *)

Lemma keeps_print {B} (proj : Machine -> B) l :
  (forall m, proj (add_line l m) = proj m) -> keeps proj (print l).
Proof. intros H m. apply H. Qed.

Lemma keeps_effects_VideoFileClip w p : keeps effects (VideoFileClip w p).
Proof. intros m. unfold VideoFileClip. now destruct (files w p). Qed.

Lemma raises_only_VideoFileClip w p :
  raises_only (fun x => x = OSError (MsgCannotOpen p)) (VideoFileClip w p).
Proof.
  intros m e m' H. unfold VideoFileClip in H.
  destruct (files w p); try discriminate; now injection H as <- _.
Qed.

Lemma keeps_effects_close_clips :
  keeps (fun f => effects (machine f)) close_clips.
Proof. intros f. now rewrite close_clips_exact. Qed.

Lemma raises_only_close_clips P : raises_only P close_clips.
Proof. intros f e f' H. rewrite close_clips_exact in H. discriminate. Qed.

Lemma keeps_effects_check_video w bp bs bf bd i e :
  keeps (fun f => effects (machine f)) (check_video w bp bs bf bd i e).
Proof.
  unfold check_video.
  repeat first
    [ apply keeps_bind; [|intros ?]
    | apply keeps_if
    | apply keeps_raise
    | apply keeps_ret
    | apply (keeps_lift effects); first [apply keeps_effects_VideoFileClip
                                        | now apply keeps_print] ].
  intros f. reflexivity.
Qed.

Lemma raises_only_check_video w es bp bs bf bd i e :
  In e es ->
  raises_only (verify_error es) (check_video w bp bs bf bd i e).
Proof.
  intros Hin.
  assert (In (path e) (map path es)) as Hp by now apply in_map.
  unfold check_video.
  apply raises_only_bind; [intros s x s' H; discriminate|]. intros _.
  apply raises_only_bind.
  { apply raises_only_if; [|apply raises_only_ret].
    apply raises_only_raise. left. eauto. }
  intros _. apply raises_only_bind.
  { apply raises_only_lift. intros m x m' H.
    apply raises_only_VideoFileClip in H as ->. left. eauto. }
  intros clip. apply raises_only_bind.
  { apply raises_only_if; [|apply raises_only_ret].
    apply raises_only_raise. right. exact I. }
  intros _. apply raises_only_bind.
  { repeat apply raises_only_if; try apply raises_only_ret.
    apply raises_only_raise. right. exact I. }
  intros _. apply raises_only_bind.
  { apply raises_only_if; [|apply raises_only_ret].
    apply raises_only_raise. right. exact I. }
  intros _ s x s' H. discriminate.
Qed.

Lemma verify_videos_effects w video_configs m :
  effects (snd (verify_videos w video_configs m)) = effects m.
Proof.
  unfold verify_videos. destruct video_configs as [|first rest]; [reflexivity|].
  match goal with
  | |- context [let (r, f) := ?run ?f0 in _] =>
      assert (keeps (fun f => effects (machine f)) run) as Hk
  end.
  { apply keeps_bind; [apply (keeps_lift effects); now apply keeps_print|].
    intros _. apply keeps_bind; [|intros _; apply keeps_ret].
    apply keeps_try_finally; [|apply keeps_effects_close_clips].
    apply keeps_try_except.
    - unfold verify_body.
      repeat first
        [ apply keeps_bind; [|intros ?]
        | apply keeps_if
        | apply keeps_raise
        | apply keeps_ret
        | apply keeps_for_enumerate; intros; apply keeps_effects_check_video
        | apply (keeps_lift effects); first [apply keeps_effects_VideoFileClip
                                            | now apply keeps_print] ].
      intros f. reflexivity.
    - intros e. apply keeps_bind; [apply keeps_effects_close_clips|].
      intros _. apply keeps_raise. }
  specialize (Hk {| machine := m; clips := [] |}).
  match goal with
  | |- context [let (r, f) := ?x in _] => destruct x as [r f]
  end.
  exact Hk.
Qed.

(** X11: [verify_videos] only reads: in any world and on any list it calls
    neither [write_videofile] nor [mkdir]. *)
Theorem verify_keeps_effects w video_configs m :
  effects (snd (verify_videos w video_configs m)) = effects m.
Proof. apply verify_videos_effects. Qed.

Lemma raises_only_cleanup {A} P (body : M Frame A) :
  raises_only P body ->
  raises_only P
    (try_finally (try_except body (fun e => close_clips ;; raise e)) close_clips).
Proof.
  intros Hb f e f' H.
  destruct (body f) as [r f1] eqn:E.
  destruct (cleanup_keeps_outcome body f r f1 E) as (f2 & Hc & _).
  rewrite Hc in H. injection H as -> _. exact (Hb _ _ _ E).
Qed.

Lemma verify_videos_errors w video_configs m x m' :
  verify_videos w video_configs m = (Raise x, m') ->
  (video_configs = [] /\ x = ValueError MsgNoConfigs)
  \/ (video_configs <> [] /\ verify_error video_configs x).
Proof.
  intros H. unfold verify_videos in H.
  destruct video_configs as [|first rest].
  { injection H as <- _. now left. }
  right. split; [discriminate|].
  match type of H with
  | (let (r, f) := ?run ?f0 in _) = _ =>
      assert (raises_only (verify_error (first :: rest)) run) as Hr;
      [|destruct (run f0) as [r f] eqn:E; injection H as -> _;
        exact (Hr _ _ _ E)]
  end.
  apply raises_only_bind; [intros s e s' H'; discriminate|]. intros _.
  apply raises_only_bind; [|intros _; apply raises_only_ret].
  apply raises_only_cleanup. unfold verify_body.
  assert (In (path first) (map path (first :: rest))) as Hp by now left.
  apply raises_only_bind; [intros s e s' H'; discriminate|]. intros _.
  apply raises_only_bind.
  { apply raises_only_if; [|apply raises_only_ret].
    apply raises_only_raise. left. eauto. }
  intros _. apply raises_only_bind.
  { apply raises_only_lift. intros m0 e m1 H'.
    apply raises_only_VideoFileClip in H' as ->. left. eauto. }
  intros base_clip. apply raises_only_bind; [intros s e s' H'; discriminate|].
  intros _. apply raises_only_bind; [intros s e s' H'; discriminate|].
  intros _. apply raises_only_bind; [|intros _ s e s' H'; discriminate].
  apply raises_only_for_enumerate. intros i e Hin.
  eapply raises_only_check_video. now right.
Qed.

(** X10: the errors of [verify_videos], in any world: on the empty list the
    [ValueError] for no configurations, and on a non-empty list only a
    missing file of the list, a file of the list that does not open, or a
    property mismatch. *)
Theorem verify_error_kinds w video_configs m x m' :
  verify_videos w video_configs m = (Raise x, m') ->
  (video_configs = [] /\ x = ValueError MsgNoConfigs)
  \/ (video_configs <> [] /\ verify_error video_configs x).
Proof. apply verify_videos_errors. Qed.

Lemma verify_error_kinds_witness :
  verify_error Example.missing_second
    (FileNotFoundError (MsgVideoNotFound "gone.mp4")).
Proof.
  destruct (verify_error_kinds Example.world Example.missing_second
              Example.fresh _ _ eq_refl) as [[H _]|[_ H]];
    [discriminate|exact H].
Defined.

(** ** [verify_videos] up to the first entry that fails *)

Lemma for_enumerate_app {St A} (l1 l2 : list A) (body : nat -> A -> M St unit) :
  forall i s,
    for_enumerate i (l1 ++ l2) body s
    = match for_enumerate i l1 body s with
      | (Return _, s1) => for_enumerate (i + length l1) l2 body s1
      | (Raise e, s1) => (Raise e, s1)
      end.
Proof.
  induction l1 as [|x l1 IH]; intros i s; simpl.
  - now rewrite Nat.add_0_r.
  - unfold bind at 1 2. destruct (body i x s) as [[[]|e] s1]; [|reflexivity].
    rewrite IH. now rewrite Nat.add_succ_r.
Qed.

(** The readers of the clips built for [es] on top of [rs] are all closed,
    whether they were open or not. *)
Lemma close_all_objects_any es :
  forall vs rs bs tl,
    length es = length vs ->
    length bs = length es ->
    close_all (objects (length rs) es vs) (rs ++ bs ++ tl)
    = rs ++ repeat false (length es) ++ tl.
Proof.
  induction es as [|e es IH]; intros vs rs bs tl Hlen Hbs.
  - destruct bs; [reflexivity|discriminate].
  - destruct vs as [|v vs]; [discriminate|]. injection Hlen as Hlen.
    destruct bs as [|b0 bs]; [discriminate|]. injection Hbs as Hbs.
    simpl. rewrite <- (Nat.add_0_r (length rs)) at 2.
    rewrite insert_app_r. simpl.
    specialize (IH vs (rs ++ [false]) bs tl Hlen Hbs).
    rewrite length_app, Nat.add_1_r, <- !app_assoc in IH. exact IH.
Qed.

Section VerifyPrefix.
Variable w : World.

(** One round of the comparison loop on a clip out of tolerance, with the
    message of the error. *)
Lemma check_video_differs_exact bp b i e v f :
  has_video w e v -> differs b v ->
  check_video w bp (size b) (fps b) (duration b) i e f =
    (Raise (ValueError (mismatch_message bp (path e) b v)),
     {| machine := set_readers (fun rs => rs ++ [true])
                     (add_line (PrChecking i (path e)) (machine f));
        clips := clips f |}).
Proof.
  intros Hv Hd.
  unfold check_video, bind, lift, print, raise, ret, clips_append, mismatch_message.
  simpl.
  rewrite (exists_has_video _ _ _ Hv). simpl.
  rewrite (VideoFileClip_has_video _ _ _ _ Hv). simpl.
  destruct (size_ne (size v) (size b)) eqn:Hsz; [reflexivity|].
  pose proof (fps_test_guard (fps v) (fps b)) as Hg.
  destruct (abs_diff_gt (fps v) (fps b) 0.001) eqn:Hfps.
  { destruct (float_ne (fps v) (fps b)); [reflexivity|discriminate]. }
  assert (abs_diff_gt (duration v) (duration b) 0.1 = true) as Hdur.
  { destruct Hd as [Hd|[Hd|Hd]]; [|congruence|exact Hd].
    apply size_ne_spec in Hd. congruence. }
  destruct (float_ne (fps v) (fps b)); rewrite Hdur; reflexivity.
Qed.

(** One round of the comparison loop on a file that is missing or does not
    open: nothing is opened. *)
Lemma check_video_bad_file bp bs bf bd i e f :
  (forall v, files w (path e) <> Video v) ->
  check_video w bp bs bf bd i e f =
    (Raise (bad_file_error w (path e)),
     {| machine := add_line (PrChecking i (path e)) (machine f);
        clips := clips f |}).
Proof.
  intros Hbad.
  unfold check_video, bind, lift, print, raise, ret, bad_file_error, exists_,
    VideoFileClip.
  simpl. destruct (files w (path e)) as [|v| |]; try reflexivity.
  destruct (Hbad v eq_refl).
Qed.

(** [verify_videos] on a list whose first clip opens, whose next clips
    [pre] open within tolerance, and whose next entry makes the loop raise
    [x] after it has opened the readers [extra]: the call raises [x], the
    readers of the first clip and of [pre] are closed, and the entries after
    are not looked at. *)
Lemma verify_raises_at base pre e post b vs m x extra :
  has_video w base b ->
  Forall2 (has_video w) pre vs ->
  Forall (fun v => ~ differs b v) vs ->
  (forall i f,
     exists m1,
       check_video w (path base) (size b) (fps b) (duration b) i e f
       = (Raise x, {| machine := m1; clips := clips f |})
       /\ readers m1 = readers (machine f) ++ extra) ->
  exists m',
    verify_videos w (base :: pre ++ e :: post) m = (Raise x, m')
    /\ readers m' = readers m ++ repeat false (S (length pre)) ++ extra.
Proof.
  intros Hb Hpre Hwithin Hround.
  unfold verify_videos.
  rewrite (bind_Return (lift (print PrVerifying)) _
             {| machine := m; clips := [] |} tt _ eq_refl).
  unfold bind at 1. unfold try_finally, try_except.
  unfold verify_body.
  rewrite (bind_Return (lift (print _)) _ _ tt _ eq_refl).
  rewrite (exists_has_video _ _ _ Hb). cbn [negb].
  rewrite (bind_Return (ret tt) _ _ tt _ eq_refl).
  unfold bind at 1, lift at 1.
  rewrite (VideoFileClip_has_video _ _ _ _ Hb).
  rewrite (bind_Return (clips_append _) _ _ tt _ eq_refl).
  rewrite (bind_Return (lift (print _)) _ _ tt _ eq_refl).
  cbn [tail clip_size clip_fps clip_duration object_of machine clips].
  unfold bind at 1. rewrite for_enumerate_app.
  match goal with
  | |- context [for_enumerate 2 pre _ ?f1] =>
      pose proof (check_loop_readers w (path base) b pre vs 2 f1 Hpre) as Hframe;
      destruct (check_loop w (path base) b pre vs 2 f1 Hpre)
        as (f' & ls & _ & [[Hex _]|[_ Hloop]])
  end.
  { apply List.Exists_exists in Hex as (v & Hin & Hd).
    rewrite List.Forall_forall in Hwithin. destruct (Hwithin v Hin Hd). }
  rewrite Hloop in Hframe |- *. simpl in Hframe. destruct Hframe as [Hr Hc].
  simpl for_enumerate. unfold bind at 1.
  destruct (Hround (S (S (length pre))) f') as (m1 & Hx & Hm1).
  rewrite Hx.
  rewrite (bind_Return _ _ _ _ _ (close_clips_exact _)).
  unfold raise. rewrite close_clips_exact. simpl.
  eexists. split; [reflexivity|]. simpl.
  rewrite Hm1, Hr, Hc, <- !app_assoc. simpl.
  pose proof (Forall2_length _ _ _ Hpre) as Hlen.
  pose proof (close_all_objects_any (base :: pre) (b :: vs) (readers m)
                (true :: repeat true (length pre)) extra
                (f_equal S Hlen)) as H1.
  pose proof (close_all_objects_any (base :: pre) (b :: vs) (readers m)
                (false :: repeat false (length pre)) extra
                (f_equal S Hlen)) as H2.
  simpl in H1, H2. rewrite !repeat_length in H1, H2.
  rewrite length_app, Nat.add_1_r.
  rewrite H1 by reflexivity. rewrite H2 by reflexivity. reflexivity.
Qed.
End VerifyPrefix.

(** X8: [verify_videos] fails fast and names the first offending clip: when
    the first clip opens, the clips [pre] after it open within tolerance and
    the next clip is out of tolerance, the call raises the [ValueError] for
    that clip, with its path, its value, the baseline value and the path of
    the first file; the size is reported before the frame rate, the frame
    rate before the duration. The entries after it are not looked at. *)
Theorem verify_reports_first_mismatch w base pre e post b vs v m :
  has_video w base b ->
  Forall2 (has_video w) pre vs ->
  Forall (fun v => ~ differs b v) vs ->
  has_video w e v ->
  differs b v ->
  fst (verify_videos w (base :: pre ++ e :: post) m)
  = Raise (ValueError (mismatch_message (path base) (path e) b v)).
Proof.
  intros Hb Hpre Hwithin Hv Hd.
  destruct (verify_raises_at w base pre e post b vs m
              (ValueError (mismatch_message (path base) (path e) b v)) [true]
              Hb Hpre Hwithin) as (m' & -> & _); [|reflexivity].
  intros i f. eexists. split.
  - apply (check_video_differs_exact w _ b i e v f Hv Hd).
  - reflexivity.
Qed.

Lemma verify_reports_first_mismatch_witness :
  fst (verify_videos Example.world Example.mismatched Example.fresh)
  = Raise (ValueError
             (MsgSizeMismatch "b.mp4" (640, 480)%Z (640, 360)%Z "a.mp4")).
Proof.
  apply (verify_reports_first_mismatch Example.world
           (Example.entry "a.mp4" "A") [] (Example.entry "b.mp4" "B") []
           Example.clip_360p [] Example.clip_480p Example.fresh).
  - reflexivity.
  - constructor.
  - constructor.
  - reflexivity.
  - left. simpl. discriminate.
Defined.

(** X9: a file that is missing or does not open stops [verify_videos] with
    every reader closed: when the entries [pre] open within tolerance of the
    first and the next entry names a file that is missing
    ([FileNotFoundError]) or that is there and is no video (the error of
    [VideoFileClip]), the call raises that error for that path, has closed
    the readers of [pre], and has not looked at the entries after. *)
Theorem verify_bad_file_closes_all w pre e post vs m :
  Forall2 (has_video w) pre vs ->
  (forall b rest, vs = b :: rest -> Forall (fun v => ~ differs b v) rest) ->
  (forall v, files w (path e) <> Video v) ->
  exists m',
    verify_videos w (pre ++ e :: post) m = (Raise (bad_file_error w (path e)), m')
    /\ readers m' = readers m ++ repeat false (length pre).
Proof.
  intros Hpre Hwithin Hbad.
  destruct Hpre as [|base b pre vs Hb Hpre].
  - simpl app. unfold verify_videos.
    rewrite (bind_Return (lift (print PrVerifying)) _
               {| machine := m; clips := [] |} tt _ eq_refl).
    unfold bind at 1. unfold try_finally, try_except, verify_body.
    rewrite (bind_Return (lift (print _)) _ _ tt _ eq_refl).
    unfold bad_file_error, exists_, bind at 1.
    destruct (files w (path e)) as [|v| |] eqn:Hf;
      try (destruct (Hbad v eq_refl));
      cbn [negb]; unfold raise, ret;
      try (unfold bind at 1, lift at 1, VideoFileClip; rewrite Hf);
      rewrite (bind_Return _ _ _ _ _ (close_clips_exact _));
      rewrite close_clips_exact; simpl;
      (eexists; split; [reflexivity|simpl; now rewrite app_nil_r]).
  - destruct (verify_raises_at w base pre e post b vs m
                (bad_file_error w (path e)) []
                Hb Hpre (Hwithin b vs eq_refl)) as (m' & Hrun & Hr).
    { intros i f. eexists. split.
      - apply (check_video_bad_file w _ _ _ _ i e f Hbad).
      - simpl. now rewrite app_nil_r. }
    exists m'. split; [exact Hrun|].
    rewrite Hr, app_nil_r. reflexivity.
Qed.

Lemma verify_bad_file_closes_all_witness :
  exists m',
    verify_videos Example.world Example.missing_second Example.fresh
    = (Raise (FileNotFoundError (MsgVideoNotFound "gone.mp4")), m')
    /\ readers m' = [false].
Proof.
  apply (verify_bad_file_closes_all Example.world
           [Example.entry "a.mp4" "A"] (Example.entry "gone.mp4" "G") []
           [Example.clip_360p] Example.fresh).
  - repeat constructor.
  - intros b rest Heq. injection Heq as <- <-. constructor.
  - intros v. discriminate.
Defined.

(** ** The render of [process_and_composite_videos] *)

(** X13: [process_and_composite_videos] renders the output once, at the very
    end, or not at all: in any world, a call that returns has completed
    exactly one call of [write_videofile], to [output_path] with the codec
    libx264, four threads and the preset medium, and a call that raises has
    completed none: when it is the encoder that fails, [write_videofile] was
    called and did not return, and no rendered video is recorded. The
    function never creates a directory. *)
Theorem compose_writes_once_or_never w video_configs output_path config m :
  match process_and_composite_videos w video_configs output_path config m with
  | (Return _, m') =>
      exists final f,
        effects m'
        = effects m ++ [Write_videofile final output_path "libx264" f 4 "medium"]
  | (Raise _, m') => effects m' = effects m
  end.
Proof.
  pose proof (compose_outcome w video_configs output_path config m) as H.
  destruct (process_and_composite_videos w video_configs output_path config m)
    as [[[]|x] m'].
  - apply H.
  - apply H.
Qed.

(** ** [load_config] in any world *)

(** The loop over the video entries, with what it returns and prints. *)
Lemma process_loop_exact vs :
  forall i acc m,
    match for_enumerate_fold i vs process_entry acc m with
    | (Return l, m') =>
        (exists new, l = acc ++ new /\ Forall2 processed_as vs new)
        /\ m' = {| readers := readers m;
                   stdout := stdout m ++ description_warnings i vs;
                   effects := effects m |}
    | (Raise x, m') =>
        readers m' = readers m /\ effects m' = effects m
        /\ invalid_configuration x
    end.
Proof.
  induction vs as [|v vs IH]; intros i acc m.
  - simpl. split.
    + exists []. split; [now rewrite app_nil_r|constructor].
    + rewrite app_nil_r. now destruct m.
  - simpl for_enumerate_fold. unfold bind at 1.
    assert (match process_entry i v acc m with
            | (Return l1, m1) =>
                (exists e, l1 = acc ++ [e] /\ processed_as v e)
                /\ m1 = {| readers := readers m;
                           stdout := stdout m ++ description_warnings i [v];
                           effects := effects m |}
            | (Raise x, m1) => m1 = m /\ invalid_configuration x
            end) as Hstep.
    { unfold process_entry. simpl description_warnings.
      destruct v as [| | | | |?|d]; try (split; [reflexivity|exact I]).
      destruct (lookup_key "path" d) as [[| | | |p| |]|] eqn:Hp;
        try (split; [reflexivity|exact I]).
      unfold bind, print, ret, add_line.
      destruct (lookup_key "description" d) as [[| | | |s| |]|] eqn:Hd; simpl;
        (split;
         [eexists; split; [reflexivity|];
          exists d; simpl; rewrite Hd; auto
         |rewrite ?app_nil_r; try reflexivity; now destruct m]). }
    destruct (process_entry i v acc m) as [[l1|x] m1].
    + destruct Hstep as [(e & -> & He) ->].
      specialize (IH (S i) (acc ++ [e])
                    {| readers := readers m;
                       stdout := stdout m ++ description_warnings i [v];
                       effects := effects m |}).
      destruct (for_enumerate_fold (S i) vs process_entry (acc ++ [e]) _)
        as [[l2|x] m2].
      * destruct IH as [(new & -> & Hnew) ->]. split.
        -- exists (e :: new). split; [now rewrite <- app_assoc|now constructor].
        -- simpl. rewrite app_nil_r, <- app_assoc. reflexivity.
      * exact IH.
    + destruct Hstep as [-> Hx]. auto.
Qed.

(** The outcomes of [load_config], in any world. *)
Lemma load_config_result w p m :
  match load_config w p m with
  | (Return cfg, m') =>
      exists config vs,
        files w p = Yaml (YDict config)
        /\ lookup_key "videos" config = Some (YList vs)
        /\ 1 <= length vs < 5
        /\ Forall2 processed_as vs (videos cfg)
        /\ lookup_key "output_video" config = Some (YStr (output_video cfg))
        /\ text_area_height cfg
           = fst (resolve_number number_lt_0 100
                    (dict_get config "text_area_height" (YInt 100)))
        /\ text_area_color cfg
           = fst (resolve_color "white"
                    (dict_get config "text_area_color" (YStr "white")))
        /\ font_size cfg
           = fst (resolve_number number_le_0 30
                    (dict_get config "font_size" (YInt 30)))
        /\ font_color cfg
           = fst (resolve_color "black"
                    (dict_get config "font_color" (YStr "black")))
        /\ m' = {| readers := readers m;
                   stdout := stdout m ++ description_warnings 0 vs
                             ++ styling_warnings config;
                   effects := effects m ++ [Mkdir_parent (output_video cfg)] |}
  | (Raise x, m') =>
      readers m' = readers m
      /\ effects m' = effects m
      /\ match files w p with
         | Absent => x = FileNotFoundError (MsgConfigNotFound p)
         | Video _ => x = ValueError MsgUnicodeDecode
         | Yaml _ => invalid_configuration x
         | Unreadable => x = YAMLError MsgYamlParse
         end
  end.
Proof.
  unfold load_config, exists_.
  destruct (files w p) as [|v|doc|] eqn:Hfile; cbn [negb];
    try (repeat split; reflexivity).
  rewrite (bind_Return (ret tt) _ _ tt _ eq_refl).
  rewrite (bind_Return (ret doc) _ _ doc _ eq_refl).
  destruct doc as [| | | | |?|config]; try (repeat split; exact I).
  destruct (lookup_key "videos" config) as [[| | | | |vs|]|] eqn:Hvideos;
    try (repeat split; exact I).
  destruct ((1 <=? length vs) && (length vs <? 5)) eqn:Hcount; cbn [negb].
  2:{ repeat split; exact I. }
  apply andb_true_iff in Hcount as [H1 H5].
  apply Nat.leb_le in H1. apply Nat.ltb_lt in H5.
  rewrite (bind_Return (ret tt) _ _ tt _ eq_refl).
  unfold bind at 1.
  pose proof (process_loop_exact vs 0 [] m) as Hloop.

  destruct (for_enumerate_fold 0 vs process_entry [] m) as [[l|x] m1];
    [|exact Hloop].
  destruct Hloop as [(new & -> & Hnew) ->]. simpl app.
  destruct (lookup_key "output_video" config) as [[| | | |out| |]|] eqn:Hout;
    try (repeat split; exact I).
  rewrite (bind_Return (ret out) _ _ out _ eq_refl).
  rewrite (bind_Return (mkdir_parent out) _ _ tt _ eq_refl).
  unfold styling_warnings, resolve_number, resolve_color, warning.
  unfold bind, print, ret, mkdir_parent, add_effect, add_line.
  destruct (as_number (dict_get config "text_area_height" (YInt 100)))
    as [n|] eqn:Eh; [destruct (number_lt_0 n) eqn:Ehb|];
  destruct (as_color (dict_get config "text_area_color" (YStr "white"))) eqn:Ec;
  (destruct (as_number (dict_get config "font_size" (YInt 30)))
    as [n'|] eqn:Ef; [destruct (number_le_0 n') eqn:Efb|]);
  destruct (as_color (dict_get config "font_color" (YStr "black"))) eqn:Efc;
  simpl;
  (exists config, vs;
   rewrite ?Eh, ?Ehb, ?Ec, ?Ef, ?Efb, ?Efc;
   repeat (split; [first [reflexivity|assumption|lia]|]);
   rewrite <- ?app_assoc; simpl; rewrite ?app_nil_r; reflexivity).
Qed.

Lemma resolve_number_not_bad bad dflt v :
  bad (NInt dflt) = false -> bad (fst (resolve_number bad dflt v)) = false.
Proof.
  intros Hd. unfold resolve_number.
  destruct (as_number v) as [n|]; [|exact Hd].
  destruct (bad n) eqn:E; [exact Hd|exact E].
Qed.

(** What the tests [n <= 0] and [n < 0] of [load_config] let through. *)
Lemma number_le_0_false n : number_le_0 n = false <-> positive n \/ is_nan n.
Proof.
  destruct n as [b|z|x]; simpl.
  - destruct b; simpl; intuition discriminate.
  - rewrite Z.leb_gt. intuition.
  - apply leb_0_false.
Qed.

Lemma number_lt_0_false n : number_lt_0 n = false <-> not_negative n \/ is_nan n.
Proof.
  destruct n as [b|z|x]; simpl.
  - intuition.
  - rewrite Z.ltb_ge. intuition.
  - apply ltb_0_false.
Qed.

(** X1: what [load_config] guarantees of a configuration that it returns:
    it has between one and four videos; its caption band height is a number
    that is not negative, or the float NaN; its font size is a number that
    is positive, or the float NaN. The tests [< 0] and [<= 0] of the
    function are false on NaN, which is therefore kept. *)
Theorem load_config_returns_valid w yaml_path m cfg m' :
  load_config w yaml_path m = (Return cfg, m') ->
  1 <= length (videos cfg) <= 4
  /\ (not_negative (text_area_height cfg) \/ is_nan (text_area_height cfg))
  /\ (positive (font_size cfg) \/ is_nan (font_size cfg)).
Proof.
  intros Hrun. pose proof (load_config_result w yaml_path m) as H.
  rewrite Hrun in H.
  destruct H as (config & vs & _ & _ & Hn & Hvs & _ & -> & _ & -> & _).
  apply Forall2_length in Hvs. split; [lia|].
  split.
  - apply number_lt_0_false. now apply resolve_number_not_bad.
  - apply number_le_0_false. now apply resolve_number_not_bad.
Qed.

Lemma load_config_returns_valid_witness :
  exists cfg m',
    load_config Example.world "four.yaml" Example.fresh = (Return cfg, m')
    /\ 1 <= length (videos cfg) <= 4
    /\ (positive (font_size cfg) \/ is_nan (font_size cfg)).
Proof.
  eexists _, _. split; [reflexivity|].
  destruct (load_config_returns_valid Example.world "four.yaml" Example.fresh
              _ _ eq_refl) as (Hn & _ & Hf).
  split; [exact Hn|exact Hf].
Defined.

(** X2: [load_config] keeps the video entries in the order of the file: the
    videos of the returned configuration correspond one to one, in order, to
    the entries under ["videos"], each with the path of its entry and with
    the description of its entry, or the empty string when the entry has no
    string description; the output path is the string under
    ["output_video"]. *)
Theorem load_config_videos_in_order w yaml_path m cfg m' config vs :
  load_config w yaml_path m = (Return cfg, m') ->
  files w yaml_path = Yaml (YDict config) ->
  lookup_key "videos" config = Some (YList vs) ->
  Forall2 processed_as vs (videos cfg)
  /\ lookup_key "output_video" config = Some (YStr (output_video cfg)).
Proof.
  intros Hrun Hfile Hvideos. pose proof (load_config_result w yaml_path m) as H.
  rewrite Hrun in H.
  destruct H as (config' & vs' & Hfile' & Hvideos' & _ & Hvs & Hout & _).
  rewrite Hfile in Hfile'. injection Hfile' as <-.
  rewrite Hvideos in Hvideos'. injection Hvideos' as <-.
  auto.
Qed.

Lemma load_config_videos_in_order_witness :
  exists cfg m',
    load_config Example.world "four.yaml" Example.fresh = (Return cfg, m')
    /\ map path (videos cfg) = ["a.mp4"; "a2.mp4"; "c.mp4"; "a.mp4"]%string.
Proof.
  eexists _, _. split; [reflexivity|].
  destruct (load_config_videos_in_order Example.world "four.yaml" Example.fresh
              _ _ _ _ eq_refl eq_refl eq_refl) as [_ _].
  reflexivity.
Defined.






(** ** [main] *)






Lemma main_body_unfold w p m :
  main_body w p m
  = match load_config w p m with
    | (Return cfg, m1) =>
        match verify_videos w (videos cfg) m1 with
        | (Return _, m2) =>
            process_and_composite_videos w (videos cfg) (output_video cfg) cfg m2
        | (Raise x, m2) => (Raise x, m2)
        end
    | (Raise x, m1) => (Raise x, m1)
    end.
Proof.
  unfold main_body, bind.
  destruct (load_config w p m) as [[cfg|x] m1]; [|reflexivity].
  destruct (verify_videos w (videos cfg) m1) as [[r|x] m2]; reflexivity.
Qed.

(** X17: [main] writes a video only when it succeeds: in any world, either it
    exits with status 0 and an empty error stream, having created the
    parent directory of the output and rendered one file there, or it exits
    with status 1 and exactly one line on the error stream, having rendered
    nothing (at most the directory was created). *)
Theorem main_writes_only_on_success w config_file m :
  match main w config_file m with
  | ((code, err), m') =>
      (code = 0%Z /\ err = []
       /\ exists out final f,
            effects m'
            = effects m
              ++ [Mkdir_parent out;
                  Write_videofile final out "libx264" f 4 "medium"])
      \/ (code = 1%Z /\ (exists l, err = [l])
          /\ (effects m' = effects m
              \/ exists out, effects m' = effects m ++ [Mkdir_parent out]))
  end.
Proof.
  unfold main. rewrite main_body_unfold.
  pose proof (load_config_result w config_file m) as Hload.
  destruct (load_config w config_file m) as [[cfg|x] m1].
  2:{ destruct Hload as (_ & He & _). right. repeat split; eauto. }
  assert (effects m1 = effects m ++ [Mkdir_parent (output_video cfg)]) as He1.
  { destruct Hload as (config & vs & _ & _ & _ & _ & _ & _ & _ & _ & _ & ->).
    reflexivity. }
  clear Hload.
  pose proof (verify_videos_effects w (videos cfg) m1) as He2.
  destruct (verify_videos w (videos cfg) m1) as [[r|x] m2]; simpl in He2.
  2:{ right. repeat split; eauto. right. exists (output_video cfg). congruence. }
  pose proof (compose_outcome w (videos cfg) (output_video cfg) cfg m2) as Hc.
  destruct (process_and_composite_videos w (videos cfg) (output_video cfg) cfg m2)
    as [[[]|x] m3].
  - destruct Hc as (_ & _ & _ & _ & final & f & He3). left. repeat split.
    exists (output_video cfg), final, f.
    rewrite He3, He2, He1, <- app_assoc. reflexivity.
  - destruct Hc as [He3 _]. right. repeat split; eauto.
    right. exists (output_video cfg). congruence.
Qed.

(** X18: the count check of [load_config] keeps the empty list away from the
    rest of the pipeline: in any world, the error that [main] reports is
    never an [IndexError] or an [UnboundLocalError], and it is never the
    [ValueError] of [verify_videos] for an empty list. *)
Theorem main_never_reports_empty_list w config_file m l :
  In l (snd (fst (main w config_file m))) ->
  match reported l with
  | IndexError _ | UnboundLocalError _ | ValueError MsgNoConfigs => False
  | _ => True
  end.
Proof.
  unfold main. rewrite main_body_unfold.
  pose proof (load_config_result w config_file m) as Hload.
  destruct (load_config w config_file m) as [[cfg|x] m1] eqn:Hrun.
  2:{ destruct Hload as (_ & _ & Hx). simpl. intros [<-|[]].
      destruct (files w config_file) as [| |doc|] eqn:Hfile; subst; try exact I.
      destruct x as [msg|msg|msg|msg|msg|msg|msg]; try contradiction.
      destruct msg; try contradiction; exact I. }
  destruct Hload as (config & vs & _ & _ & Hn & Hvs & _).
  assert (videos cfg <> []) as Hne.
  { apply Forall2_length in Hvs. intros E. rewrite E in Hvs. simpl in Hvs. lia. }
  destruct (verify_videos w (videos cfg) m1) as [[r|x] m2] eqn:Hverify.
  2:{ simpl. intros [<-|[]]. simpl.
      destruct (verify_videos_errors w _ _ _ _ Hverify) as [[E _]|[_ Herr]];
        [contradiction|].
      destruct Herr as [(p & _ & [->| ->])|HPM]; try exact I.
      destruct x as [| [] | | | | |]; simpl in *; try exact I; contradiction. }
  pose proof (compose_outcome w (videos cfg) (output_video cfg) cfg m2) as Hc.
  destruct (process_and_composite_videos w (videos cfg) (output_video cfg) cfg m2)
    as [[[]|x] m3]; simpl; [intros []|].
  intros [<-|[]]. simpl.
  destruct Hc as [_ [[E _]|[_ [(p & _ & ->)|[Hx|[-> _]]]]]];
    [contradiction|exact I| |exact I].
  unfold ColorClip_error in Hx.
  destruct (text_area_height cfg) as [b|h|y];
    try (injection Hx as <-; exact I).
  destruct (h <? 0)%Z; [injection Hx as <-; exact I|discriminate].
Qed.

Lemma main_never_reports_empty_list_witness :
  In (ErrError (FileNotFoundError (MsgConfigNotFound "none.yaml")))
     (snd (fst (main Example.world "none.yaml" Example.fresh)))
  /\ True.
Proof.
  split; [now left|].
  exact (main_never_reports_empty_list Example.world "none.yaml" Example.fresh
           _ (or_introl eq_refl)).
Defined.

(** ** The layout and the readers of a run that completes *)

(** X12: the layout that [process_and_composite_videos] renders: whenever
    the function completes, the clip that it has given to [write_videofile]
    is the arrangement of one column per entry, in order; each column stacks
    the clip of its entry over a caption band, and the band lays the
    description of the entry, in the font size and color of the
    configuration, wrapped at 0.9 times the width of the first clip and
    centered, over a background of the color (255, 255, 255) whose size is
    the width of the first clip by the configured band height; background
    and caption last as long as the clip of the entry. *)
Theorem compose_writes_columns w video_configs output_path config m m' :
  process_and_composite_videos w video_configs output_path config m
    = (Return tt, m') ->
  exists v vs f,
    Forall2 (has_video w) video_configs (v :: vs)
    /\ effects m'
       = effects m
         ++ [Write_videofile
               (arrangement
                  (zip_with (column (fst (size v)) config) video_configs
                     (objects (S (length (readers m))) video_configs (v :: vs))))
               output_path "libx264" f 4 "medium"].
Proof.
  intros Hrun.
  destruct (compose_render w _ _ _ _ _ Hrun)
    as (e & rest & v & vrest & olast & -> & Hvs & _ & _ & _ & Heff).
  exists v, vrest, (clip_fps olast). split; [exact Hvs|exact Heff].
Qed.

Lemma compose_writes_columns_witness :
  exists v f,
    has_video Example.world (Example.entry "a.mp4" "A") v
    /\ effects
         (snd (process_and_composite_videos Example.world Example.one_video
                 "out/compare.mp4"
                 (Example.config Example.one_video (ColorName "white"))
                 Example.fresh))
       = [Write_videofile
            (column (fst (size v))
               (Example.config Example.one_video (ColorName "white"))
               (Example.entry "a.mp4" "A")
               (object_of 1 (Example.entry "a.mp4" "A") v))
            "out/compare.mp4" "libx264" f 4 "medium"].
Proof.
  destruct (compose_writes_columns Example.world Example.one_video
              "out/compare.mp4"
              (Example.config Example.one_video (ColorName "white"))
              Example.fresh _ eq_refl)
    as (v & vs & f & Hvs & Heff).
  inversion Hvs as [|? ? ? ? Hv Hrest]; subst. inversion Hrest; subst.
  exists v, f. split; [exact Hv|exact Heff].
Defined.

(** ** What a call that returns tells *)

Section Returns.
Variable w : World.

(** The entries after the first either all open within tolerance of the
    baseline [b], or there is a first one that does not. *)
Lemma scan_entries b rest :
  (exists vs, Forall2 (has_video w) rest vs /\ Forall (fun v => ~ differs b v) vs)
  \/ (exists pre e post vs,
        rest = pre ++ e :: post
        /\ Forall2 (has_video w) pre vs
        /\ Forall (fun v => ~ differs b v) vs
        /\ ((forall v, files w (path e) <> Video v)
            \/ exists v, has_video w e v /\ differs b v)).
Proof.
  induction rest as [|e rest IH].
  - left. exists []. split; constructor.
  - assert ((forall v, files w (path e) <> Video v)
            \/ exists v, has_video w e v) as [Hbad|[v Hv]].
    { unfold has_video. destruct (files w (path e)) as [|v| |]; eauto;
        left; discriminate. }
    { right. exists [], e, rest, [].
      split; [reflexivity|]. split; [constructor|]. split; [constructor|].
      now left. }
    destruct (differs_dec b v) as [Hd|Hd].
    { right. exists [], e, rest, [].
      split; [reflexivity|]. split; [constructor|]. split; [constructor|].
      right. eauto. }
    destruct IH as [(vs & Hvs & Hall)|(pre & e' & post & vs & -> & Hvs & Hall & H)].
    + left. exists (v :: vs). split; now constructor.
    + right. exists (e :: pre), e', post, (v :: vs).
      split; [reflexivity|]. split; [now constructor|].
      split; [now constructor|exact H].
Qed.

(** [verify_videos] on a list whose first file is missing or does not
    open. *)
Lemma verify_raises_at_base e post m :
  (forall v, files w (path e) <> Video v) ->
  verify_videos w (e :: post) m
  = (Raise (bad_file_error w (path e)),
     add_line (PrLoadingBase (path e)) (add_line PrVerifying m)).
Proof.
  intros Hbad. unfold verify_videos.
  rewrite (bind_Return (lift (print PrVerifying)) _
             {| machine := m; clips := [] |} tt _ eq_refl).
  unfold bind at 1. unfold try_finally, try_except, verify_body.
  rewrite (bind_Return (lift (print _)) _ _ tt _ eq_refl).
  unfold bad_file_error, exists_, bind at 1.
  destruct (files w (path e)) as [|v| |] eqn:Hf;
    try (destruct (Hbad v eq_refl));
    cbn [negb]; unfold raise, ret;
    try (unfold bind at 1, lift at 1, VideoFileClip; rewrite Hf);
    rewrite (bind_Return _ _ _ _ _ (close_clips_exact _));
    rewrite close_clips_exact; simpl; reflexivity.
Qed.
End Returns.

(** A call of [verify_videos] that returns: its result, the files of the
    list and the readers. *)
Lemma verify_returns w video_configs m r m' :
  verify_videos w video_configs m = (Return r, m') ->
  r = None
  /\ (exists b vs,
        Forall2 (has_video w) video_configs (b :: vs)
        /\ Forall (fun v => ~ differs b v) vs)
  /\ readers m' = readers m ++ repeat false (length video_configs).
Proof.
  intros Hrun. destruct video_configs as [|base rest]; [discriminate|].

  assert (exists b, has_video w base b) as [b Hb].
  { unfold has_video. destruct (files w (path base)) as [|v| |] eqn:Hf; eauto;
      rewrite verify_raises_at_base in Hrun
        by (intros v; rewrite Hf; discriminate);
      discriminate. }
  destruct (scan_entries w b rest)
    as [(vs & Hvs & Hall)|(pre & e & post & vs & -> & Hvs & Hall & Hcase)].
  - pose proof (List.Forall2_cons _ _ Hb Hvs) as Hall2.
    pose proof (verify_videos_readers w base rest b vs m Hall2) as Hr.
    destruct (verify_videos_cons w base rest b vs m Hall2)
      as (m2 & ls & _ & [[_ (x & Hx & _)]|[_ Hret]]); [congruence|].
    rewrite Hret in Hrun, Hr. injection Hrun as <- <-.
    split; [reflexivity|]. split; [eauto|exact Hr].
  - exfalso. destruct Hcase as [Hbad|(v & Hv & Hd)].
    + destruct (verify_raises_at w base pre e post b vs m
                  (bad_file_error w (path e)) [] Hb Hvs Hall) as (m2 & Hx & _).
      { intros i f. eexists. split.
        - apply (check_video_bad_file w _ _ _ _ i e f Hbad).
        - simpl. now rewrite app_nil_r. }
      congruence.
    + destruct (verify_raises_at w base pre e post b vs m
                  (ValueError (mismatch_message (path base) (path e) b v)) [true]
                  Hb Hvs Hall) as (m2 & Hx & _).
      { intros i f. eexists. split.
        - apply (check_video_differs_exact w _ b i e v f Hv Hd).
        - reflexivity. }
      congruence.
Qed.

(** X7: a verification that returns is sound: in any world, when
    [verify_videos] returns, it returns [None], every file of the list
    exists and opens, every clip after the first is within tolerance of the
    first (same size, frame rate within 0.001, duration within 0.1), and
    every reader that the call opened is closed, the readers that were
    there before being as they were. *)
Theorem verify_returns_sound w video_configs m r m' :
  verify_videos w video_configs m = (Return r, m') ->
  r = None
  /\ (exists b vs,
        Forall2 (has_video w) video_configs (b :: vs)
        /\ Forall (fun v => ~ differs b v) vs)
  /\ readers m' = readers m ++ repeat false (length video_configs).
Proof. exact (verify_returns w video_configs m r m'). Qed.

Lemma verify_returns_sound_witness :
  readers (snd (verify_videos Example.world Example.two_videos Example.fresh))
  = [false; false].
Proof.
  destruct (verify_returns_sound Example.world Example.two_videos Example.fresh
              _ _ eq_refl) as (_ & _ & Hr).
  exact Hr.
Defined.

(** X15: what a composition that returns tells: in any world, when
    [process_and_composite_videos] returns, the list was not empty, every
    file of it opened and the encoder worked; the function opened the first
    file twice, and of the readers it opened only the first, the probe for
    the dimensions, is closed: the one reader per entry opened in the loop is
    still open. *)
Theorem compose_returns_inversion w video_configs output_path config m m' :
  process_and_composite_videos w video_configs output_path config m
    = (Return tt, m') ->
  video_configs <> []
  /\ encoder_fails w = false
  /\ (exists vs, Forall2 (has_video w) video_configs vs)
  /\ readers m' = readers m ++ false :: repeat true (length video_configs).
Proof.
  intros Hrun.
  destruct (compose_render w _ _ _ _ _ Hrun)
    as (e & rest & v & vrest & olast & -> & Hvs & Henc & _ & Hr & _).
  split; [discriminate|]. split; [exact Henc|]. split; [eauto|exact Hr].
Qed.

Lemma compose_returns_inversion_witness :
  readers
    (snd (process_and_composite_videos Example.world Example.two_videos
            "out/compare.mp4"
            (Example.config Example.two_videos (ColorName "white"))
            Example.fresh))
  = [false; true; true].
Proof.
  destruct (compose_returns_inversion Example.world Example.two_videos
              "out/compare.mp4"
              (Example.config Example.two_videos (ColorName "white"))
              Example.fresh _ eq_refl) as (_ & _ & _ & Hr).
  exact Hr.
Defined.

(** ** What the exit status of [main] tells *)

(** X16: what the exit status 0 of [main] tells, in any world: nothing was
    printed on the error stream; the configuration file parsed to a mapping
    with one to four well-formed video entries and a string output path;
    every video of it exists and opens, and each one after the first is
    within tolerance of the first; the parent directory of the output was
    created and then one file was rendered at the output path, with the
    codec libx264, at the frame rate of the clip of the last entry. *)
Theorem main_exit_0_inversion w config_file m err m' :
  main w config_file m = ((0%Z, err), m') ->
  err = []
  /\ exists config vs cfg b props vlast final,
       files w config_file = Yaml (YDict config)
       /\ lookup_key "videos" config = Some (YList vs)
       /\ 1 <= length vs <= 4
       /\ Forall2 processed_as vs (videos cfg)
       /\ lookup_key "output_video" config = Some (YStr (output_video cfg))
       /\ Forall2 (has_video w) (videos cfg) (b :: props)
       /\ Forall (fun v => ~ differs b v) props
       /\ last (b :: props) = Some vlast
       /\ effects m'
          = effects m
            ++ [Mkdir_parent (output_video cfg);
                Write_videofile final (output_video cfg) "libx264" (fps vlast)
                  4 "medium"].
Proof.
  unfold main. rewrite main_body_unfold.
  pose proof (load_config_result w config_file m) as Hload.
  destruct (load_config w config_file m) as [[cfg|x] m1]; [|discriminate].
  destruct Hload as (config & vs & Hfile & Hvideos & Hn & Hvs & Hout & _ & _ & _
                     & _ & Hm1).
  destruct (verify_videos w (videos cfg) m1) as [[r|x] m2] eqn:Hverify;
    [|discriminate].
  destruct (process_and_composite_videos w (videos cfg) (output_video cfg) cfg m2)
    as [[[]|x] m3] eqn:Hcompose; [|discriminate].
  intros Heq. injection Heq as <- <-. split; [reflexivity|].
  pose proof (verify_videos_effects w (videos cfg) m1) as He2.
  rewrite Hverify in He2. simpl in He2.
  destruct (verify_returns w _ _ _ _ Hverify) as (_ & (b & props & Hprops & Hall) & _).
  destruct (compose_render w _ _ _ _ _ Hcompose)
    as (e & rest & v & vrest & olast & Heq & Hvs' & _ & Ho & _ & Heff).
  rewrite Heq in Hprops.
  pose proof (has_video_unique w _ _ _ Hvs' Hprops) as Hsame.
  injection Hsame as -> ->.
  assert (exists vlast, last (b :: props) = Some vlast) as [vlast Hlast].
  { destruct (last (b :: props)) eqn:E; [eauto|]. apply last_None in E.
    discriminate. }
  destruct (last_objects w (S (length (readers m2))) _ _ _ Hvs' Hlast)
    as (elast & _ & Ho').
  rewrite Ho' in Ho. injection Ho as <-.
  exists config, vs, cfg, b, props, vlast. eexists.
  split; [exact Hfile|]. split; [exact Hvideos|]. split; [lia|].
  split; [exact Hvs|]. split; [exact Hout|].
  split; [rewrite Heq; exact Hprops|]. split; [exact Hall|].
  split; [exact Hlast|].
  rewrite Heff, He2, Hm1. simpl. rewrite <- app_assoc. reflexivity.
Qed.

Lemma main_exit_0_inversion_witness :
  exists cfg vlast final,
    effects (snd (main Example.world "four.yaml" Example.fresh))
    = [Mkdir_parent (output_video cfg);
       Write_videofile final (output_video cfg) "libx264" (fps vlast) 4
         "medium"].
Proof.
  assert (main Example.world "four.yaml" Example.fresh
          = ((0%Z, []), snd (main Example.world "four.yaml" Example.fresh)))
    as Hrun by (vm_compute; reflexivity).
  destruct (main_exit_0_inversion Example.world "four.yaml" Example.fresh _ _
              Hrun)
    as (_ & config & vs & cfg & b & props & vlast & final & _ & _ & _
        & _ & _ & _ & _ & _ & Heff).
  exists cfg, vlast, final. exact Heff.
Defined.

(** ** [apply_name_rules] *)

(** X19: applying a list of rename rules is applying its parts one after the
    other: for any [re.sub], the rules [rules1 ++ rules2] applied to a name
    give what [rules2] gives on the result of [rules1], and fail when
    [rules1] fails. *)
Theorem apply_name_rules_app re_sub name rules1 rules2 :
  apply_name_rules re_sub name (rules1 ++ rules2)
  = match apply_name_rules re_sub name rules1 with
    | Some name1 => apply_name_rules re_sub name1 rules2
    | None => None
    end.
Proof.
  revert name. induction rules1 as [|rule rules1 IH]; intros name; simpl.
  - reflexivity.
  - destruct (truthy (rule_get rule "from")); [|apply IH].
    destruct (re_sub (rule_get rule "from") (rule_get rule "to") name);
      [apply IH|reflexivity].
Qed.

(** X20: a rule without a pattern does nothing: when no rule of the list has
    a non-empty string under ["from"], the name comes back unchanged and
    [re.sub] is not called, so that the call cannot fail. *)
Theorem apply_name_rules_no_pattern re_sub name rules :
  Forall (fun rule => rule_get rule "from" = ""%string) rules ->
  apply_name_rules re_sub name rules = Some name.
Proof.
  induction 1 as [|rule rules Hrule _ IH]; simpl; [reflexivity|].
  now rewrite Hrule.
Qed.

Lemma apply_name_rules_no_pattern_witness :
  apply_name_rules (fun _ _ _ => None) "dataset_v1"
    [[("to", "x")]; [("from", ""); ("to", "y")]; []]%string
  = Some "dataset_v1"%string.
Proof.
  apply apply_name_rules_no_pattern. repeat constructor.
Defined.

(** ** The readers that were there before *)

(** X21: [verify_videos] touches no reader but its own: in any world and on
    every path, returning or raising, the readers that were there before the
    call are as they were, and the call has only added readers after
    them. *)
Theorem verify_keeps_earlier_readers w video_configs m :
  exists new,
    readers (snd (verify_videos w video_configs m)) = readers m ++ new.
Proof.
  destruct video_configs as [|base rest].
  { exists []. simpl. now rewrite app_nil_r. }
  assert ((forall v, files w (path base) <> Video v)
          \/ exists b, has_video w base b) as [Hbad|[b Hb]].
  { unfold has_video. destruct (files w (path base)) as [|v| |]; eauto;
      left; discriminate. }
  { rewrite (verify_raises_at_base w base rest m Hbad).
    exists []. simpl. now rewrite app_nil_r. }
  destruct (scan_entries w b rest)
    as [(vs & Hvs & Hall)|(pre & e & post & vs & -> & Hvs & Hall & Hcase)].
  - pose proof (List.Forall2_cons _ _ Hb Hvs) as Hall2.
    pose proof (verify_videos_readers w base rest b vs m Hall2) as Hr.
    destruct (verify_videos_cons w base rest b vs m Hall2)
      as (m2 & ls & _ & [[Hex _]|[_ Hret]]).
    { apply List.Exists_exists in Hex as (v & Hin & Hd).
      rewrite List.Forall_forall in Hall. destruct (Hall v Hin Hd). }
    rewrite Hret in Hr |- *. eauto.
  - destruct Hcase as [Hbad|(v & Hv & Hd)].
    + destruct (verify_raises_at w base pre e post b vs m
                  (bad_file_error w (path e)) [] Hb Hvs Hall) as (m2 & -> & Hr).
      { intros i f. eexists. split.
        - apply (check_video_bad_file w _ _ _ _ i e f Hbad).
        - simpl. now rewrite app_nil_r. }
      eauto.
    + destruct (verify_raises_at w base pre e post b vs m
                  (ValueError (mismatch_message (path base) (path e) b v)) [true]
                  Hb Hvs Hall) as (m2 & -> & Hr).
      { intros i f. eexists. split.
        - apply (check_video_differs_exact w _ b i e v f Hv Hd).
        - reflexivity. }
      eauto.
Qed.
